(** * SmartQGen: the quiz client's session logic

    A shallow embedding of the client-side logic of the quiz generator's
    React front end: upload validation ([FileUpload.tsx]), the quiz-taking
    component ([QuizInterface.tsx]), the results component
    ([ResultsDisplay]) and the top-level wizard ([App.tsx]).

    React state hooks become record fields; an event handler becomes a
    function from the component state to the new state together with the
    effects it performs (dialogs, requests, calls of the parent's callback).
    An [async] handler is split at its [await]: the part before it issues a
    request, the part after it is a continuation run when the response
    arrives, on whatever the state is at that moment. *)

From Stdlib Require Import ZArith QArith String Ascii List Lia.
From stdpp Require Import gmap strings list fin_maps pretty.

Local Open Scope string_scope.
Local Open Scope Z_scope.

(** ** JavaScript numbers

    A [number] that is finite is a rational; comparisons of finite numbers
    are exact, so the rational order is the order the program sees.  The
    three non-finite values are kept apart because division produces them.
    Division and multiplication round their exact result to the nearest
    double (binary64, ties to even, with subnormals and overflow), as IEEE
    754 prescribes for every single operation. *)
Module JsNum.

Inductive number : Type :=
| Fin (q : Q)
| NaN
| PosInf
| NegInf.

Definition Qltb (x y : Q) : bool :=
  (Qnum x * QDen y <? Qnum y * QDen x)%Z.

(** [a >= b] *)
Definition ge (a b : number) : bool :=
  match a, b with
  | NaN, _ | _, NaN => false
  | Fin x, Fin y => Qle_bool y x
  | PosInf, _ => true
  | _, NegInf => true
  | _, _ => false
  end.

(** [a < b] *)
Definition lt (a b : number) : bool :=
  match a, b with
  | NaN, _ | _, NaN => false
  | Fin x, Fin y => Qltb x y
  | NegInf, NegInf => false
  | NegInf, _ => true
  | Fin _, PosInf => true
  | _, _ => false
  end.

(** [floor (log2 (n / d))] *)
Definition ilog2 (n d : positive) : Z :=
  let k := Z.log2 (Zpos n) - Z.log2 (Zpos d) in
  if 0 <=? k
  then (if Zpos d * 2 ^ k <=? Zpos n then k else k - 1)
  else (if Zpos d <=? Zpos n * 2 ^ (- k) then k else k - 1).

(** The integer nearest to [num / den], the even one of two that are
    equally near ([0 <= num], [0 < den]). *)
Definition roundHalfEven (num den : Z) : Z :=
  let q := num / den in
  let r := num mod den in
  if 2 * r <? den then q
  else if den <? 2 * r then q + 1
  else if Z.even q then q else q + 1.

(** The double nearest to [n / d]: a 53-bit integer [m] times [2 ^ e], with
    [e] at least -1074 (below that the numbers are subnormal and lose
    bits); a result of [2 ^ 1024] or more is infinite. *)
Definition roundPos (n d : positive) : number :=
  let e := Z.max (ilog2 n d - 52) (-1074) in
  let m := if 0 <=? e then roundHalfEven (Zpos n) (Zpos d * 2 ^ e)
           else roundHalfEven (Zpos n * 2 ^ (- e)) (Zpos d) in
  if (971 <? e) || ((e =? 971) && (2 ^ 53 <=? m)) then PosInf
  else Fin (Qred (if 0 <=? e then inject_Z (m * 2 ^ e) else m # Z.to_pos (2 ^ (- e)))).

(** [- a] *)
Definition neg (a : number) : number :=
  match a with
  | Fin q => Fin (- q)
  | NaN => NaN
  | PosInf => NegInf
  | NegInf => PosInf
  end.

(** The double nearest to the rational [x] (the sign of a zero is not
    kept). *)
Definition roundDouble (x : Q) : number :=
  match Qnum x with
  | Z0 => Fin 0
  | Zpos n => roundPos n (Qden x)
  | Zneg n => neg (roundPos n (Qden x))
  end.

(** [a / b] for [a] and [b] that are not negative zero (array lengths and
    counts never are). *)
Definition div (a b : number) : number :=
  match a, b with
  | NaN, _ | _, NaN => NaN
  | Fin x, Fin y =>
      if Qeq_bool y 0 then
        if Qeq_bool x 0 then NaN
        else if Qltb 0 x then PosInf else NegInf
      else roundDouble (x / y)
  | Fin _, _ => Fin 0
  | PosInf, Fin y => if Qltb y 0 then NegInf else PosInf
  | NegInf, Fin y => if Qltb y 0 then PosInf else NegInf
  | _, _ => NaN
  end.

(** [a * b] *)
Definition mul (a b : number) : number :=
  match a, b with
  | NaN, _ | _, NaN => NaN
  | Fin x, Fin y => roundDouble (x * y)
  | Fin x, PosInf | PosInf, Fin x =>
      if Qeq_bool x 0 then NaN else if Qltb 0 x then PosInf else NegInf
  | Fin x, NegInf | NegInf, Fin x =>
      if Qeq_bool x 0 then NaN else if Qltb 0 x then NegInf else PosInf
  | PosInf, PosInf | NegInf, NegInf => PosInf
  | _, _ => NegInf
  end.

Definition of_nat (n : nat) : number := Fin (inject_Z (Z.of_nat n)).
Definition of_Z (n : Z) : number := Fin (inject_Z n).

Definition is_finite (a : number) : bool :=
  match a with Fin _ => true | _ => false end.

End JsNum.

(** ** Effects

    What a handler does besides updating its component's state: browser
    dialogs, console output, requests to the backend and the download of a
    received document.  A handler returns the effects it performs, in
    order. *)
(** A browser [File]: its name and its size in bytes. *)
Module File.
Record t := { name : string; size : Z }.
End File.
Abbreviation File := File.t.

Inductive effect : Type :=
| WindowConfirm (msg : string)
| Alert (msg : string)
| ConsoleError (msg : string)
| FetchUpload (file : File)
| FetchExport (session_id export_type file_format : string)
| FetchSubmitQuiz (session_id : string) (answers : gmap string string)
| Download (filename : string).

(** How a request ends: a response (with [response.ok] and its body), or a
    rejected promise (network failure). *)
Inductive fetchOutcome (A : Type) : Type :=
| Response (ok : bool) (body : A)
| Rejected (message : string).
Arguments Response {A} ok body.
Arguments Rejected {A} message.

(** ** Strings: [split], [pop], [toLowerCase] *)
Module JsString.

(** [s.split(sep)] for a one-character separator: never empty, the empty
    string gives one empty segment. *)
Fixpoint split (sep : ascii) (s : string) : list string :=
  match s with
  | EmptyString => [EmptyString]
  | String c s' =>
      if Ascii.eqb c sep then EmptyString :: split sep s'
      else match split sep s' with
           | [] => [String c EmptyString]
           | seg :: rest => String c seg :: rest
           end
  end.

(** [a.pop()]: the last element, [undefined] on an empty array. *)
Definition pop (a : list string) : option string := last a.

Definition lower_ascii (c : ascii) : ascii :=
  let n := N_of_ascii c in
  if ((65 <=? n) && (n <=? 90))%N then ascii_of_N (n + 32) else c.

(** [s.toLowerCase()] on the ASCII letters; other characters are left as
    they are (no character outside ASCII lowercases to a letter of an
    allowed extension). *)
Fixpoint toLowerCase (s : string) : string :=
  match s with
  | EmptyString => EmptyString
  | String c s' => String (lower_ascii c) (toLowerCase s')
  end.

(** ['.' + x] where [x] may be [undefined]. *)
Definition dot_plus (x : option string) : string :=
  match x with
  | Some e => "." +:+ e
  | None => ".undefined"
  end.

(** [a.includes(x)] *)
Definition includes (a : list string) (x : string) : bool :=
  existsb (String.eqb x) a.

(** JS truthiness of [string | undefined]. *)
Definition truthy (v : option string) : bool :=
  match v with
  | Some EmptyString | None => false
  | Some _ => true
  end.

(** [a || b] on [string | undefined] *)
Definition or_else (a : option string) (b : string) : string :=
  match a with
  | Some EmptyString | None => b
  | Some s => s
  end.

Definition contains (c : ascii) (s : string) : bool :=
  existsb (Ascii.eqb c) (list_ascii_of_string s).

End JsString.

(** ** Objects used as maps

    A plain object [{...}] holds its own properties and inherits those of
    [Object.prototype]; a read [o[k]] finds either. *)
Module JsObject.
Import JsString.

(** The property names of [Object.prototype]; each holds a function or an
    object. *)
Definition objectPrototype : list string :=
  ["constructor"; "__defineGetter__"; "__defineSetter__"; "hasOwnProperty";
   "__lookupGetter__"; "__lookupSetter__"; "isPrototypeOf"; "propertyIsEnumerable";
   "toString"; "valueOf"; "__proto__"; "toLocaleString"].

(** What [o[k]] yields for an object whose own properties hold strings. *)
Inductive value : Type :=
| Undefined
| Own (s : string)
| Inherited.

(** [o[k]] *)
Definition get (o : gmap string string) (k : string) : value :=
  match o !! k with
  | Some s => Own s
  | None => if includes objectPrototype k then Inherited else Undefined
  end.

(** JS truthiness of [o[k]]. *)
Definition truthy (v : value) : bool :=
  match v with
  | Undefined => false
  | Own EmptyString => false
  | Own _ => true
  | Inherited => true
  end.

End JsObject.

(** ** FileUpload *)
Module FileUpload.
Import JsString.

Record state := {
  isDragging : bool;
  isUploading : bool;
  error : option string;
  selectedFile : option File
}.

Definition initial : state :=
  {| isDragging := false; isUploading := false; error := None; selectedFile := None |}.

Definition setError (e : option string) (st : state) : state :=
  {| isDragging := isDragging st; isUploading := isUploading st;
     error := e; selectedFile := selectedFile st |}.

Definition setSelectedFile (f : option File) (st : state) : state :=
  {| isDragging := isDragging st; isUploading := isUploading st;
     error := error st; selectedFile := f |}.

Definition setIsUploading (b : bool) (st : state) : state :=
  {| isDragging := isDragging st; isUploading := b;
     error := error st; selectedFile := selectedFile st |}.

Definition allowedTypes : list string := [".pdf"; ".docx"; ".txt"].

Definition fileExt (file : File) : string :=
  dot_plus (toLowerCase <$> pop (split "." (File.name file))).

Definition maxSize : Z := 10 * 1024 * 1024.

Definition MB : Z := 1024 * 1024.

Definition typeError : string := "Please upload a PDF, DOCX, or TXT file".
Definition sizeError : string := "File size must be less than 10MB".

Definition validateAndSetFile (file : File) (st : state) : state * list effect :=
  if negb (includes allowedTypes (fileExt file)) then
    (setError (Some typeError) st, [])
  else if File.size file >? maxSize then
    (setError (Some sizeError) st, [])
  else
    (setSelectedFile (Some file) (setError None st), []).

(** [handleUpload] up to its [await fetch]. *)
Definition handleUpload (st : state) : state * list effect :=
  match selectedFile st with
  | None => (st, [])
  | Some f => (setError None (setIsUploading true st), [FetchUpload f])
  end.

End FileUpload.

(** ** QuizInterface *)
Module QuizInterface.
Import JsNum JsString.

Record Question := {
  id : string;
  question_text : string;
  option_a : string;
  option_b : string;
  option_c : string;
  option_d : string;
  difficulty_level : option string;
  blooms_taxonomy : option string
}.

(** The component's state hooks ([startTime] only feeds the clock display
    and is left out).  [answers] is the object used as a map from question
    id to the chosen option label. *)
Record state := {
  currentQuestion : Z;
  answers : gmap string string;
  exporting : bool
}.

(** [useState(0)], [useState({})], [useState(false)] *)
Definition initial : state :=
  {| currentQuestion := 0; answers := ∅; exporting := false |}.

Definition setCurrentQuestion (i : Z) (st : state) : state :=
  {| currentQuestion := i; answers := answers st; exporting := exporting st |}.

Definition setAnswers (f : gmap string string -> gmap string string) (st : state) : state :=
  {| currentQuestion := currentQuestion st; answers := f (answers st);
     exporting := exporting st |}.

Definition setExporting (b : bool) (st : state) : state :=
  {| currentQuestion := currentQuestion st; answers := answers st; exporting := b |}.

Section Props.
(** The component's props. *)
Variable questions : list Question.
Variable sessionId : string.
Variable onSubmit : gmap string string -> list effect.

Definition handleAnswer (questionId answer : string) (st : state) : state :=
  setAnswers (fun prev => <[questionId := answer]> prev) st.

Definition handleNext (st : state) : state :=
  if currentQuestion st <? Z.of_nat (length questions) - 1
  then setCurrentQuestion (currentQuestion st + 1) st
  else st.

Definition handlePrevious (st : state) : state :=
  if currentQuestion st >? 0
  then setCurrentQuestion (currentQuestion st - 1) st
  else st.

(** The row of numbered buttons, [questions.map((_, idx) => <button
    onClick={() => setCurrentQuestion(idx)}>)]: one click handler per
    question, in order. *)
Definition jumpButtons : list (state -> state) :=
  imap (fun idx _ => setCurrentQuestion (Z.of_nat idx)) questions.

(** A click on the [k]-th numbered button; there is nothing to click where
    no button is rendered. *)
Definition jumpTo (k : nat) (st : state) : state :=
  match jumpButtons !! k with
  | Some onClick => onClick st
  | None => st
  end.

(** [questions.filter((q) => !answers[q.id])] *)
Definition unanswered (st : state) : list Question :=
  List.filter (fun q => negb (JsObject.truthy (JsObject.get (answers st) (id q)))) questions.

Definition confirmMessage (n : nat) : string :=
  "You have " +:+ pretty n +:+ " unanswered question(s). Submit anyway?".

(** [confirm] is the user's reply to the dialog. *)
Definition handleSubmit (confirm : string -> bool) (st : state) : state * list effect :=
  let unanswered := unanswered st in
  if (0 <? length unanswered)%nat then
    let msg := confirmMessage (length unanswered) in
    if negb (confirm msg) then (st, [WindowConfirm msg])
    else (st, WindowConfirm msg :: onSubmit (answers st))
  else (st, onSubmit (answers st)).

(** [handleExportQuestions] up to its [await fetch]. *)
Definition handleExportQuestions (format : string) (st : state) : state * list effect :=
  (setExporting true st, [FetchExport sessionId "questions_only" format]).

(** The rest of [handleExportQuestions], run when the request ends: the
    [!response.ok] branch, the download, the [catch] and the [finally]. *)
Definition handleExportQuestions_resume (format : string) (r : fetchOutcome unit)
    (st : state) : state * list effect :=
  match r with
  | Response false _ => (setExporting false st, [Alert "Export failed!"])
  | Response true _ =>
      (setExporting false st,
       [Download ("questions_" +:+ sessionId +:+ "." +:+ format)])
  | Rejected _ => (setExporting false st, [Alert "Error exporting questions."])
  end.

(** The export button: [disabled={exporting}],
    [onClick={() => handleExportQuestions("pdf")}]. *)
Definition clickExport (st : state) : state * list effect :=
  if exporting st then (st, []) else handleExportQuestions "pdf" st.

(** [Object.keys(answers)] *)
Definition Object_keys (o : gmap string string) : list string :=
  (map_to_list o).*1.

Definition answeredCount (st : state) : nat :=
  length (Object_keys (answers st)).

Definition progress (st : state) : number :=
  mul (div (of_nat (answeredCount st)) (of_nat (length questions))) (of_Z 100).

(** The option buttons of the displayed question,
    [["A","B","C","D"].map(option => <button onClick={() =>
    handleAnswer(question.id, option)}>)]. *)
Definition optionLabels : list string := ["A"; "B"; "C"; "D"].

Definition clickOption (k : nat) (st : state) : state :=
  match questions !! Z.to_nat (currentQuestion st), optionLabels !! k with
  | Some question, Some option =>
      if currentQuestion st <? 0 then st else handleAnswer (id question) option st
  | _, _ => st
  end.

End Props.

(** What the user can do on the navigation bar. *)
Inductive navEvent : Type :=
| Next
| Previous
| Jump (k : nat).

Definition navStep (questions : list Question) (e : navEvent) (st : state) : state :=
  match e with
  | Next => handleNext questions st
  | Previous => handlePrevious st
  | Jump k => jumpTo questions k st
  end.

Definition navRun (questions : list Question) (es : list navEvent) (st : state) : state :=
  fold_left (fun s e => navStep questions e s) es st.

(** The quiz component together with the export requests it has sent and
    that have not ended yet.  The user clicks the export button, navigates
    and selects options; a request that is outstanding ends at some point
    with some outcome. *)
Record session := { ui : state; outstanding : nat }.

Inductive sessionEvent : Type :=
| ClickExport
| Navigate (e : navEvent)
| Select (k : nat)
| ExportEnds (r : fetchOutcome unit).

Definition isFetchExport (e : effect) : bool :=
  match e with FetchExport _ _ _ => true | _ => false end.

Definition sessionStep (questions : list Question) (sessionId : string)
    (e : sessionEvent) (c : session) : session * list effect :=
  match e with
  | ClickExport =>
      let '(st, effs) := clickExport sessionId (ui c) in
      ({| ui := st;
          outstanding := outstanding c + length (List.filter isFetchExport effs) |}, effs)
  | Navigate e => ({| ui := navStep questions e (ui c); outstanding := outstanding c |}, [])
  | Select k => ({| ui := clickOption questions k (ui c); outstanding := outstanding c |}, [])
  | ExportEnds r =>
      match outstanding c with
      | O => (c, [])
      | S n =>
          let '(st, effs) := handleExportQuestions_resume sessionId "pdf" r (ui c) in
          ({| ui := st; outstanding := n |}, effs)
      end
  end.

Definition sessionRun (questions : list Question) (sessionId : string)
    (es : list sessionEvent) (c : session) : session :=
  fold_left (fun c e => (sessionStep questions sessionId e c).1) es c.

Definition sessionStart : session := {| ui := initial; outstanding := 0 |}.

(** The export flag is set exactly while one request is outstanding. *)
Definition singleFlight (c : session) : Prop :=
  outstanding c = if exporting (ui c) then 1%nat else 0%nat.

(** The answer map holds option labels only, as every map built by
    [clickOption] from the empty one does. *)
Definition labelled (o : gmap string string) : Prop :=
  map_Forall (fun _ v => v ∈ optionLabels) o.

(** No question id is the name of a property of [Object.prototype]. *)
Definition plainIds (questions : list Question) : Prop :=
  Forall (fun q => includes JsObject.objectPrototype (id q) = false) questions.

(** The cursor points at a question. *)
Definition in_range (questions : list Question) (st : state) : Prop :=
  0 <= currentQuestion st < Z.of_nat (length questions).

End QuizInterface.

(** A question set of length five, for the scenarios. *)
Module Samples.
Import QuizInterface.

Definition question (i text : string) : Question :=
  {| id := i; question_text := text;
     option_a := "first"; option_b := "second"; option_c := "third"; option_d := "fourth";
     difficulty_level := Some "Easy"; blooms_taxonomy := None |}.

Definition five : list Question :=
  [question "q1" "one?"; question "q2" "two?"; question "q3" "three?";
   question "q4" "four?"; question "q5" "five?"].

(** Three of the five answered. *)
Definition threeAnswered : state :=
  {| currentQuestion := 4;
     answers := <["q1" := "A"]> (<["q2" := "C"]> (<["q4" := "B"]> ∅));
     exporting := false |}.

(** One of three answered. *)
Definition three : list Question :=
  [question "q1" "one?"; question "q2" "two?"; question "q3" "three?"].

Definition oneAnswered : state :=
  {| currentQuestion := 0; answers := <["q2" := "D"]> ∅; exporting := false |}.

(** Two questions that share an id, the shared id answered. *)
Definition twins : list Question := [question "q1" "one?"; question "q1" "again?"].

Definition twinAnswered : state :=
  {| currentQuestion := 1; answers := <["q1" := "A"]> ∅; exporting := false |}.

End Samples.

(** ** ResultsDisplay: the grade and the export buttons *)
Module ResultsDisplay.
Import JsNum.

Record gradeInfo := { grade : string; color : string; bg : string }.

Definition getGrade (percentage : number) : gradeInfo :=
  if ge percentage (of_Z 93) then
    {| grade := "S"; color := "text-green-600"; bg := "bg-green-50" |}
  else if ge percentage (of_Z 85) then
    {| grade := "A"; color := "text-blue-600"; bg := "bg-blue-50" |}
  else if ge percentage (of_Z 75) then
    {| grade := "B"; color := "text-yellow-600"; bg := "bg-yellow-50" |}
  else if ge percentage (of_Z 60) then
    {| grade := "C"; color := "text-orange-600"; bg := "bg-orange-50" |}
  else if ge percentage (of_Z 35) then
    {| grade := "D"; color := "text-orange-600"; bg := "bg-orange-50" |}
  else
    {| grade := "F"; color := "text-red-600"; bg := "bg-red-50" |}.

Record state := {
  expandedQuestion : option string;
  isExporting : bool
}.

Definition initial : state := {| expandedQuestion := None; isExporting := false |}.

Definition setIsExporting (b : bool) (st : state) : state :=
  {| expandedQuestion := expandedQuestion st; isExporting := b |}.

Section Props.
Variable sessionId : string.

(** [handleExport] up to its [await fetch]. *)
Definition handleExport (exportType format : string) (st : state) : state * list effect :=
  (setIsExporting true st, [FetchExport sessionId exportType format]).

(** The rest of [handleExport], run when the request ends; [now] is
    [Date.now()].  A response that is not ok throws inside the [try], so
    both kinds of failure reach the [catch]. *)
Definition handleExport_resume (exportType format : string) (now : Z)
    (r : fetchOutcome unit) (st : state) : state * list effect :=
  match r with
  | Response true _ =>
      (setIsExporting false st,
       [Download ("quiz_" +:+ exportType +:+ "_" +:+ pretty now +:+ "." +:+ format)])
  | Response false _ | Rejected _ =>
      (setIsExporting false st,
       [ConsoleError "Export error:"; Alert "Export failed. Please try again."])
  end.

(** The two export buttons, both [disabled={isExporting}]. *)
Definition clickExport (format : string) (st : state) : state * list effect :=
  if isExporting st then (st, []) else handleExport "results_with_answers" format st.

End Props.

End ResultsDisplay.

(** ** App: the wizard *)
Module App.
Import JsNum JsString.

Inductive AppState : Type := upload | generate | quiz | results.

Record ResultItem := {
  question_id : string;
  result_question_text : string;
  user_answer : string;
  correct_answer : string;
  is_correct : bool;
  explanation : string;
  options : string * string * string * string
}.

(** [result_items] is the [results] array of the scoring reply. *)
Record QuizResult := {
  session_id : string;
  total_questions : Z;
  correct_answers : Z;
  incorrect_answers : Z;
  percentage : number;
  result_items : list ResultItem
}.

(** [ApiResponse<QuizResult>]; [api_error] is its [error] field. *)
Record ApiResponse := {
  success : bool;
  data : option QuizResult;
  api_error : option string
}.

(** The state hooks of [App] ([phase] is the hook named [state] and
    [quizResults] the hook named [results] in the source), and below them the state of the one child
    that is rendered for the current phase: React keeps a child's state
    only while the child is mounted. *)
Record state := {
  phase : AppState;
  fileId : string;
  fileName : string;
  questions : list QuizInterface.Question;
  sessionId : string;
  quizResults : option QuizResult;
  error : option string;
  backendStatus : option bool;
  quizInterface : option QuizInterface.state;
  resultsDisplay : option ResultsDisplay.state
}.

Definition initial : state :=
  {| phase := upload; fileId := ""; fileName := ""; questions := []; sessionId := "";
     quizResults := None; error := None; backendStatus := None;
     quizInterface := None; resultsDisplay := None |}.

(** Rendering after a state update: [{state === 'quiz' && <QuizInterface/>}]
    and [{state === 'results' && results && <ResultsDisplay/>}].  A child
    that stops being rendered loses its state; one that starts being
    rendered gets its initial state.  This is the hook state with which
    the children are rendered; whether their render succeeds is decided
    apart ([AppFlow.commit]). *)
Definition render (st : state) : state :=
  {| phase := phase st; fileId := fileId st; fileName := fileName st;
     questions := questions st; sessionId := sessionId st;
     quizResults := quizResults st; error := error st;
     backendStatus := backendStatus st;
     quizInterface :=
       match phase st with
       | quiz => Some (default QuizInterface.initial (quizInterface st))
       | _ => None
       end;
     resultsDisplay :=
       match phase st, quizResults st with
       | results, Some _ => Some (default ResultsDisplay.initial (resultsDisplay st))
       | _, _ => None
       end |}.

Definition handleFileUploaded (id name : string) (st : state) : state :=
  render
    {| phase := generate; fileId := id; fileName := name;
       questions := questions st; sessionId := sessionId st;
       quizResults := quizResults st; error := None;
       backendStatus := backendStatus st;
       quizInterface := quizInterface st; resultsDisplay := resultsDisplay st |}.

Definition handleQuestionsGenerated (generatedQuestions : list QuizInterface.Question)
    (sessionId' : string) (st : state) : state :=
  render
    {| phase := quiz; fileId := fileId st; fileName := fileName st;
       questions := generatedQuestions; sessionId := sessionId';
       quizResults := quizResults st; error := None;
       backendStatus := backendStatus st;
       quizInterface := quizInterface st; resultsDisplay := resultsDisplay st |}.

Definition setError (e : option string) (st : state) : state :=
  render
    {| phase := phase st; fileId := fileId st; fileName := fileName st;
       questions := questions st; sessionId := sessionId st;
       quizResults := quizResults st; error := e;
       backendStatus := backendStatus st;
       quizInterface := quizInterface st; resultsDisplay := resultsDisplay st |}.

(** [handleQuizSubmit] up to its [await]: the request carries the
    [sessionId] of the render in which the handler was created. *)
Definition handleQuizSubmit (answers : gmap string string) (st : state) : list effect :=
  [FetchSubmitQuiz (sessionId st) answers].

(** The rest of [handleQuizSubmit], run on the state that is current when
    the call returns ([inl response]) or throws ([inr message]). *)
Definition handleQuizSubmit_resume (r : ApiResponse + string) (st : state) : state :=
  match r with
  | inl response =>
      match success response, data response with
      | true, Some d =>
          render
            {| phase := results; fileId := fileId st; fileName := fileName st;
               questions := questions st; sessionId := sessionId st;
               quizResults := Some d; error := None;
               backendStatus := backendStatus st;
               quizInterface := quizInterface st; resultsDisplay := resultsDisplay st |}
      | _, _ => setError (Some (or_else (api_error response) "Failed to submit quiz")) st
      end
  | inr message => setError (Some message) st
  end.

Definition handleRestart (st : state) : state :=
  render
    {| phase := upload; fileId := ""; fileName := ""; questions := []; sessionId := "";
       quizResults := None; error := None;
       backendStatus := backendStatus st;
       quizInterface := quizInterface st; resultsDisplay := resultsDisplay st |}.

(** The answer map and the cursor live in the mounted [QuizInterface]. *)
Definition answerMap (st : state) : option (gmap string string) :=
  QuizInterface.answers <$> quizInterface st.

Definition navigationCursor (st : state) : option Z :=
  QuizInterface.currentQuestion <$> quizInterface st.

(** A click on the quiz's submit button: the child's [handleSubmit] with
    [onSubmit={handleQuizSubmit}]. *)
Definition clickSubmit (confirm : string -> bool) (st : state) : state * list effect :=
  match quizInterface st with
  | None => (st, [])
  | Some q =>
      let '(q', effs) :=
        QuizInterface.handleSubmit (questions st)
          (fun answers => handleQuizSubmit answers st) confirm q in
      ({| phase := phase st; fileId := fileId st; fileName := fileName st;
          questions := questions st; sessionId := sessionId st;
          quizResults := quizResults st; error := error st;
          backendStatus := backendStatus st;
          quizInterface := Some q'; resultsDisplay := resultsDisplay st |}, effs)
  end.

End App.

(** A quiz attempt under way and a scoring result, for the scenarios. *)
Module Scenarios.
Import App.

(** Take phase of session [s-1]: five questions, three answered, cursor on
    the last question. *)
Definition taking : state :=
  {| phase := quiz; fileId := "f-1"; fileName := "notes.pdf";
     questions := Samples.five; sessionId := "s-1";
     quizResults := None; error := None; backendStatus := Some true;
     quizInterface := Some Samples.threeAnswered; resultsDisplay := None |}.

Definition scored : QuizResult :=
  {| session_id := "s-1"; total_questions := 5; correct_answers := 2;
     incorrect_answers := 3; percentage := JsNum.of_Z 40; result_items := [] |}.

(** The scoring service's successful reply for session [s-1]. *)
Definition reply : ApiResponse :=
  {| success := true; data := Some scored; api_error := None |}.

(** Take phase on the question list with a shared id. *)
Definition twinsTaking : state :=
  {| phase := quiz; fileId := "f-1"; fileName := "notes.pdf";
     questions := Samples.twins; sessionId := "s-1";
     quizResults := None; error := None; backendStatus := Some true;
     quizInterface := Some Samples.twinAnswered; resultsDisplay := None |}.

Definition declines (msg : string) : bool := false.
Definition confirms (msg : string) : bool := true.

End Scenarios.

(** ** The specification's vocabulary

    Notions that the specification uses and the code does not compute
    in the same way; they are defined here from the specification's words
    and compared with the code below. *)
Module SpecWords.
Import JsString.

(** The extension of a file name: the text after its last dot; a name
    without a dot has none. *)
Fixpoint extension (s : string) : option string :=
  match s with
  | EmptyString => None
  | String c s' =>
      match extension s' with
      | Some e => Some e
      | None => if Ascii.eqb c "." then Some s' else None
      end
  end.

(** The file's extension, compared without regard to case, is on the
    allow-list. *)
Definition extensionAllowed (file : File) : bool :=
  match extension (File.name file) with
  | Some e => includes FileUpload.allowedTypes ("." +:+ toLowerCase e)
  | None => false
  end.

(** The unanswered-question count: the number of questions less the number
    of answer-map keys that are ids of questions. *)
Definition unansweredCount (questions : list QuizInterface.Question)
    (answers : gmap string string) : nat :=
  (length questions
   - size (dom answers ∩ list_to_set (QuizInterface.id <$> questions) : gset string))%nat.

(** The stale-response guard of the specification: a response whose
    request was sent for another session than the current one changes
    nothing. *)
Definition stale_responses_discarded : Prop :=
  forall (sent_for : string) (r : App.ApiResponse + string) (st : App.state),
    sent_for <> App.sessionId st -> App.handleQuizSubmit_resume r st = st.

End SpecWords.

(** ** Responses with a JSON body

    What [await response.json()] yields: the parsed object, of which the
    code reads the [detail] of an error reply and the payload of a good
    one, or a thrown parse error. *)
Inductive jsonBody (A : Type) : Type :=
| JsonError (message : string)
| Json (detail : option string) (payload : A).
Arguments JsonError {A} message.
Arguments Json {A} detail payload.

(** ** FileUpload: drag and drop, the file input and the upload itself *)
Module FileUploadFlow.
Import JsString FileUpload.

Definition setIsDragging (b : bool) (st : state) : state :=
  {| isDragging := b; isUploading := isUploading st;
     error := error st; selectedFile := selectedFile st |}.

Definition handleDragOver (st : state) : state := setIsDragging true st.

Definition handleDragLeave (st : state) : state := setIsDragging false st.

(** [files] is [e.dataTransfer.files]; only [files[0]] is looked at. *)
Definition handleDrop (files : list File) (st : state) : state * list effect :=
  match files !! 0%nat with
  | Some file => validateAndSetFile file (setIsDragging false st)
  | None => (setIsDragging false st, [])
  end.

(** [files] is [e.target.files], which may be [null]. *)
Definition handleFileInput (files : option (list File)) (st : state) : state * list effect :=
  match files ≫= (fun fs => fs !! 0%nat) with
  | Some file => validateAndSetFile file st
  | None => (st, [])
  end.

(** The payload of the upload reply. *)
Record uploadData := { file_id : string; file_name : string }.

(** The rest of [handleUpload], run when the request ends.  Beside the
    new state it returns the arguments of the [onFileUploaded] call, if the
    call is made.  Everything thrown inside the [try] is an [Error], so the
    [catch] shows its message. *)
Definition handleUpload_resume (r : fetchOutcome (jsonBody uploadData)) (st : state)
    : state * option (string * string) :=
  match r with
  | Response true (Json _ d) =>
      (setIsUploading false (setSelectedFile None st), Some (file_id d, file_name d))
  | Response false (Json detail _) =>
      (setIsUploading false (setError (Some (or_else detail "Upload failed")) st), None)
  | Response _ (JsonError message) | Rejected message =>
      (setIsUploading false (setError (Some message) st), None)
  end.

(** The panel with the Cancel and Upload buttons:
    [{selectedFile && !isUploading && (...)}]. *)
Definition panelShown (st : state) : bool :=
  match selectedFile st with
  | Some _ => negb (isUploading st)
  | None => false
  end.

(** The file passes both checks of [validateAndSetFile]. *)
Definition valid (file : File) : Prop :=
  includes allowedTypes (fileExt file) = true /\ File.size file <= maxSize.

(** The component together with the upload requests that have not ended. *)
Record flow := { ui : state; outstanding : nat }.

Inductive event : Type :=
| DragOver
| DragLeave
| Drop (files : list File)
| FileInput (files : option (list File))
| Cancel
| ClickUpload
| UploadEnds (r : fetchOutcome (jsonBody uploadData)).

Definition isFetchUpload (e : effect) : bool :=
  match e with FetchUpload _ => true | _ => false end.

(** One event.  The file input is [disabled={isUploading}]; the two
    buttons exist only while the panel is shown; a request can end only
    if one is outstanding.  Drops are taken in every state. *)
Definition step (e : event) (c : flow) : flow * list effect :=
  match e with
  | DragOver => ({| ui := handleDragOver (ui c); outstanding := outstanding c |}, [])
  | DragLeave => ({| ui := handleDragLeave (ui c); outstanding := outstanding c |}, [])
  | Drop files =>
      let '(st, effs) := handleDrop files (ui c) in
      ({| ui := st; outstanding := outstanding c |}, effs)
  | FileInput files =>
      if isUploading (ui c) then (c, [])
      else
        let '(st, effs) := handleFileInput files (ui c) in
        ({| ui := st; outstanding := outstanding c |}, effs)
  | Cancel =>
      if panelShown (ui c)
      then ({| ui := setSelectedFile None (ui c); outstanding := outstanding c |}, [])
      else (c, [])
  | ClickUpload =>
      if panelShown (ui c) then
        let '(st, effs) := handleUpload (ui c) in
        ({| ui := st;
            outstanding := outstanding c + length (List.filter isFetchUpload effs) |}, effs)
      else (c, [])
  | UploadEnds r =>
      match outstanding c with
      | O => (c, [])
      | S n => ({| ui := (handleUpload_resume r (ui c)).1; outstanding := n |}, [])
      end
  end.

(** A run, with everything it sent. *)
Fixpoint run (es : list event) (c : flow) : flow * list effect :=
  match es with
  | [] => (c, [])
  | e :: es' =>
      let '(c1, effs1) := step e c in
      let '(c2, effs2) := run es' c1 in
      (c2, (effs1 ++ effs2)%list)
  end.

Definition start : flow := {| ui := initial; outstanding := 0 |}.

(** The selected file, if any, passed validation. *)
Definition selectionValid (c : flow) : Prop :=
  forall f, selectedFile (ui c) = Some f -> valid f.

(** The upload flag is set exactly while one request is outstanding. *)
Definition singleFlight (c : flow) : Prop :=
  outstanding c = if isUploading (ui c) then 1%nat else 0%nat.

End FileUploadFlow.

(** ** ApiService ([services/api.ts]) *)
Module ApiService.
Import JsString.

(** [ApiResponse<T>] *)
Record ApiResponse (A : Type) := {
  success : bool;
  data : option A;
  error : option string
}.
Arguments success {A} _.
Arguments data {A} _.
Arguments error {A} _.

(** The [detail] field of an error reply as far as the code looks at it:
    whether it is truthy, and the text [String(detail)] that [new Error]
    makes of it. *)
Record detailValue := { isTruthy : bool; text : string }.


(** What [await response.json()] yields.  The body may fail to parse; it
    may be [null], on which reading [data.detail] throws a [TypeError]
    with the engine's message; it may be another falsy value ([false],
    [0], [""]); any other body is read as an object of the declared type,
    with or without a [detail] field. *)
Inductive body (A : Type) : Type :=
| Unparsable (message : string)
| JNull (typeErrorMessage : string)
| JFalsy
| JObject (detail : option detailValue) (payload : A).
Arguments Unparsable {A} message.
Arguments JNull {A} typeErrorMessage.
Arguments JFalsy {A}.
Arguments JObject {A} detail payload.

(** [data.detail || fallback] *)
Definition detailOr (detail : option detailValue) (fallback : string) : string :=
  match detail with
  | Some d => if isTruthy d then text d else fallback
  | None => fallback
  end.

(** The body shared by [uploadFile], [generateQuestions],
    [createQuizSession] and [submitQuiz] from the end of the request on:
    parse the body, throw [data.detail || fallback] unless the response is
    ok, return the body as [data], and turn whatever was thrown into a
    failure value.  In the result [data] is [None] when the field is
    missing or holds [null] or another falsy value: the callers only test
    it for truthiness before they use it. *)
Definition respond {A : Type} (fallback : string) (r : fetchOutcome (body A))
    : ApiResponse A :=
  match r with
  | Response _ (Unparsable message) | Rejected message =>
      {| success := false; data := None; error := Some message |}
  | Response true (JNull _) | Response true JFalsy =>
      {| success := true; data := None; error := None |}
  | Response true (JObject _ d) => {| success := true; data := Some d; error := None |}
  | Response false (JNull message) =>
      {| success := false; data := None; error := Some message |}
  | Response false JFalsy => {| success := false; data := None; error := Some fallback |}
  | Response false (JObject detail _) =>
      {| success := false; data := None; error := Some (detailOr detail fallback) |}
  end.

Definition createQuizSession {A : Type} := @respond A "Session creation failed".

(** [submitQuiz], as the [ApiResponse<QuizResult>] that [App] consumes. *)
Definition submitQuiz (r : fetchOutcome (body App.QuizResult)) : App.ApiResponse :=
  let response := respond "Quiz submission failed" r in
  {| App.success := success response; App.data := data response;
     App.api_error := error response |}.

Definition checkHealth {B : Type} (r : fetchOutcome B) : bool :=
  match r with
  | Response ok _ => ok
  | Rejected _ => false
  end.

End ApiService.

(** ** App: the events of the wizard *)
Module AppFlow.
Import JsString App.

(** [setBackendStatus(status)] in the start-up effect. *)
Definition setBackendStatus (status : bool) (st : state) : state :=
  render
    {| phase := phase st; fileId := fileId st; fileName := fileName st;
       questions := questions st; sessionId := sessionId st;
       quizResults := quizResults st; error := error st;
       backendStatus := Some status;
       quizInterface := quizInterface st; resultsDisplay := resultsDisplay st |}.

(** The yellow banner: [{backendStatus === false && (...)}]. *)
Definition bannerShown (st : state) : bool :=
  match backendStatus st with
  | Some false => true
  | _ => false
  end.

(** The red overlay: [{error && (...)}]. *)
Definition overlayShown (st : state) : bool := truthy (error st).

(** An update of the mounted quiz component. *)
Definition inQuiz (f : QuizInterface.state -> QuizInterface.state) (st : state) : state :=
  {| phase := phase st; fileId := fileId st; fileName := fileName st;
     questions := questions st; sessionId := sessionId st;
     quizResults := quizResults st; error := error st;
     backendStatus := backendStatus st;
     quizInterface := f <$> quizInterface st; resultsDisplay := resultsDisplay st |}.

(** The state with another health status, nothing else changed. *)
Definition withStatus (b : option bool) (st : state) : state :=
  {| phase := phase st; fileId := fileId st; fileName := fileName st;
     questions := questions st; sessionId := sessionId st;
     quizResults := quizResults st; error := error st;
     backendStatus := b;
     quizInterface := quizInterface st; resultsDisplay := resultsDisplay st |}.

(** Everything that calls one of [App]'s handlers or updates the mounted
    quiz: the children's callbacks, the end of a submission (the reply of
    [apiService.submitQuiz] for some end of the request), the restart
    button, the overlay's dismiss button, the end of the health check, and
    the user's navigation and option clicks in the quiz. *)
Inductive event : Type :=
| FileUploaded (id name : string)
| QuestionsGenerated (generated : list QuizInterface.Question) (session : string)
| SubmitEnds (r : fetchOutcome (ApiService.body QuizResult))
| Restart
| DismissError
| HealthChecked (status : bool)
| Navigate (e : QuizInterface.navEvent)
| Select (k : nat).

Definition step (e : event) (st : state) : state :=
  match e with
  | FileUploaded id name => handleFileUploaded id name st
  | QuestionsGenerated generated session => handleQuestionsGenerated generated session st
  | SubmitEnds r => handleQuizSubmit_resume (inl (ApiService.submitQuiz r)) st
  | Restart => handleRestart st
  | DismissError => setError None st
  | HealthChecked status => setBackendStatus status st
  | Navigate e => inQuiz (QuizInterface.navStep (questions st) e) st
  | Select k => inQuiz (QuizInterface.clickOption (questions st) k) st
  end.

(** The render of [QuizInterface] throws when there is no question under
    the cursor: [questions[currentQuestion]] is [undefined] and the render
    reads [question.difficulty_level].  Of the components whose source is
    at hand, no other render throws on values of the declared types. *)
Definition renderThrows (st : state) : bool :=
  match quizInterface st with
  | Some q =>
      match questions st !! Z.to_nat (QuizInterface.currentQuestion q) with
      | Some _ => QuizInterface.currentQuestion q <? 0
      | None => true
      end
  | None => false
  end.

(** The outcome of rendering a state: there is no error boundary, so a
    render that throws makes React unmount the whole tree ([None]: a blank
    page that takes no further event). *)
Definition commit (st : state) : option state :=
  if renderThrows st then None else Some st.







End AppFlow.

(** ** QuizInterface: what is rendered *)
Module QuizView.
Import JsString QuizInterface.

(** [answers[question.id] === option] *)
Definition isSelected (question : Question) (option : string) (st : state) : bool :=
  bool_decide (answers st !! id question = Some option).

(** The button at the right of the navigation bar: Submit on the last
    question ([currentQuestion === questions.length - 1]), Next
    elsewhere. *)
Definition submitShown (questions : list Question) (st : state) : bool :=
  currentQuestion st =? Z.of_nat (length questions) - 1.

(** Every answered id is the id of a question. *)
Definition keysWithin (questions : list Question) (st : state) : Prop :=
  dom (answers st) ⊆ (list_to_set (id <$> questions) : gset string).

(** [n] presses of a button. *)
Definition presses (n : nat) (handler : state -> state) (st : state) : state :=
  Nat.iter n handler st.

End QuizView.

(** ** ResultsDisplay: the detail list *)
Module ResultsView.
Import JsString ResultsDisplay.

Definition setExpandedQuestion (x : option string) (st : state) : state :=
  {| expandedQuestion := x; isExporting := isExporting st |}.

(** The click on a result's header:
    [setExpandedQuestion(expandedQuestion === id ? null : id)]. *)
Definition toggle (question_id : string) (st : state) : state :=
  setExpandedQuestion
    (if bool_decide (expandedQuestion st = Some question_id) then None
     else Some question_id) st.


Inductive boxStyle : Type := Green | Red | Gray.
Inductive icon : Type := CheckCircle | XCircle.

Definition optionLabels : list string := ["A"; "B"; "C"; "D"].

(** The class of an option's box. *)
Definition optionBox (result : App.ResultItem) (option : string) : boxStyle :=
  let isUserAnswer := String.eqb (App.user_answer result) option in
  let isCorrect := String.eqb (App.correct_answer result) option in
  if isCorrect then Green else if isUserAnswer then Red else Gray.

(** The icons at the right of an option. *)
Definition optionIcons (result : App.ResultItem) (option : string) : list icon :=
  let isUserAnswer := String.eqb (App.user_answer result) option in
  let isCorrect := String.eqb (App.correct_answer result) option in
  ((if isCorrect then [CheckCircle] else [])
   ++ (if isUserAnswer && negb isCorrect then [XCircle] else []))%list.

Definition isRed (b : boxStyle) : bool := match b with Red => true | _ => false end.
Definition isGreen (b : boxStyle) : bool := match b with Green => true | _ => false end.

(** The boxes of the four options of one result. *)
Definition boxes (result : App.ResultItem) : list boxStyle :=
  optionBox result <$> optionLabels.

(** The order of the grades. *)
Definition gradeRank (g : string) : nat :=
  if String.eqb g "S" then 5
  else if String.eqb g "A" then 4
  else if String.eqb g "B" then 3
  else if String.eqb g "C" then 2
  else if String.eqb g "D" then 1
  else 0.

(** The results page together with its export requests that have not
    ended.  Both export buttons are [disabled={isExporting}]. *)
Record flow := { ui : state; outstanding : nat }.

Inductive event : Type :=
| ClickExport (format : string)
| Toggle (question_id : string)
| ExportEnds (exportType format : string) (now : Z) (r : fetchOutcome unit).

Definition step (sessionId : string) (e : event) (c : flow) : flow * list effect :=
  match e with
  | ClickExport format =>
      let '(st, effs) := clickExport sessionId format (ui c) in
      ({| ui := st;
          outstanding :=
            outstanding c + length (List.filter QuizInterface.isFetchExport effs) |}, effs)
  | Toggle question_id => ({| ui := toggle question_id (ui c); outstanding := outstanding c |}, [])
  | ExportEnds exportType format now r =>
      match outstanding c with
      | O => (c, [])
      | S n =>
          let '(st, effs) := handleExport_resume exportType format now r (ui c) in
          ({| ui := st; outstanding := n |}, effs)
      end
  end.

Definition run (sessionId : string) (es : list event) (c : flow) : flow :=
  fold_left (fun c e => (step sessionId e c).1) es c.

Definition start : flow := {| ui := initial; outstanding := 0 |}.

(** A result without an answer, for the scenarios. *)
Definition unansweredItem : App.ResultItem :=
  {| App.question_id := "q3"; App.result_question_text := "three?";
     App.user_answer := ""; App.correct_answer := "B"; App.is_correct := false;
     App.explanation := ""; App.options := ("first", "second", "third", "fourth") |}.

End ResultsView.

(** * Properties *)

Module JsNumFacts.
Import JsNum.

Lemma Qltb_lt x y : Qltb x y = true <-> (x < y)%Q.
Proof. unfold Qltb, Qlt. apply Z.ltb_lt. Qed.

Lemma Qltb_ge x y : Qltb x y = false <-> (y <= x)%Q.
Proof. unfold Qltb, Qle. rewrite Z.ltb_ge. reflexivity. Qed.

Lemma ge_Fin x y : ge (Fin x) (Fin y) = true <-> (y <= x)%Q.
Proof. simpl. apply Qle_bool_iff. Qed.

Lemma ge_Fin_false x y : ge (Fin x) (Fin y) = false <-> (x < y)%Q.
Proof.
  simpl. split; intros H.
  - apply Qnot_le_lt. intros Hle. apply Qle_bool_iff in Hle. congruence.
  - destruct (Qle_bool y x) eqn:E; [|reflexivity].
    apply Qle_bool_iff in E. exfalso. apply (Qlt_not_le _ _ H E).
Qed.

Lemma lt_Fin x y : lt (Fin x) (Fin y) = true <-> (x < y)%Q.
Proof. simpl. apply Qltb_lt. Qed.

(** On every pair of numbers, [a < b] excludes [a >= b]. *)
Lemma lt_not_ge a b : lt a b = true -> ge a b = false.
Proof.
  destruct a, b; simpl; try congruence; intros H.
  apply Qltb_lt in H. apply (ge_Fin_false q q0). exact H.
Qed.

(** [>=] against a finite bound is monotone in the bound. *)
Lemma ge_weaken a x y : (y <= x)%Q -> ge a (Fin x) = true -> ge a (Fin y) = true.
Proof.
  destruct a; simpl; try congruence; intros Hxy H.
  apply Qle_bool_iff in H. apply Qle_bool_iff. eapply Qle_trans; eassumption.
Qed.

Lemma of_Z_ge_mono a m n : (n <= m)%Z -> ge a (of_Z m) = true -> ge a (of_Z n) = true.
Proof.
  intros Hnm. apply ge_weaken. unfold Qle; simpl. lia.
Qed.

Lemma of_Z_lt_mono a m n : (m <= n)%Z -> lt a (of_Z m) = true -> ge a (of_Z n) = false.
Proof.
  intros Hmn Hlt. apply lt_not_ge in Hlt.
  destruct (ge a (of_Z n)) eqn:E; [|reflexivity].
  rewrite (of_Z_ge_mono a n m Hmn E) in Hlt. discriminate.
Qed.

End JsNumFacts.

(** *** Rounding to a double *)
Module RoundFacts.
Import JsNum.

Lemma roundHalfEven_between num den :
  0 < den -> num / den <= roundHalfEven num den <= num / den + 1.
Proof.
  intros Hden. unfold roundHalfEven.
  destruct (2 * (num mod den) <? den); [lia|].
  destruct (den <? 2 * (num mod den)); [lia|].
  destruct (Z.even (num / den)); lia.
Qed.

(** Rounding never passes an integer: an integer above the quotient is
    above the rounded quotient, and likewise below. *)
Lemma roundHalfEven_le num den k :
  0 < den -> num <= k * den -> roundHalfEven num den <= k.
Proof.
  intros Hden Hk. unfold roundHalfEven.
  pose proof (Z.div_mod num den ltac:(lia)) as Hdm.
  pose proof (Z.mod_pos_bound num den Hden) as Hr.
  assert (Hq : num / den <= k) by (apply Z.div_le_upper_bound; lia).
  destruct (Z.ltb_spec (2 * (num mod den)) den); [exact Hq|].
  assert (Hlt : num / den < k) by nia.
  destruct (den <? 2 * (num mod den)); [lia|].
  destruct (Z.even (num / den)); lia.
Qed.

Lemma roundHalfEven_ge num den k :
  0 < den -> k * den <= num -> k <= roundHalfEven num den.
Proof.
  intros Hden Hk. pose proof (roundHalfEven_between num den Hden) as [Hlo _].
  assert (Hq : k <= num / den) by (apply Z.div_le_lower_bound; lia). lia.
Qed.

Lemma ilog2_le n d : ilog2 n d <= Z.log2 (Zpos n) - Z.log2 (Zpos d).
Proof.
  unfold ilog2. destruct (0 <=? _); destruct (_ <=? _); lia.
Qed.

(** A positive rational that is at most the integer [B] rounds to a finite
    number that is at most [B]. *)
Lemma roundPos_bounds n d B :
  0 < B -> Z.log2 B <= 50 -> Zpos n <= B * Zpos d ->
  exists q, roundPos n d = Fin q /\ (0 <= q)%Q /\ (q <= inject_Z B)%Q.
Proof.
  intros HB Hlog Hle.
  assert (He : Z.max (ilog2 n d - 52) (-1074) < 0).
  { pose proof (ilog2_le n d) as Hi.
    assert (Z.log2 (Zpos n) <= Z.log2 (B * Zpos d)) by (apply Z.log2_le_mono; lia).
    pose proof (Z.log2_mul_above B (Zpos d) ltac:(lia) ltac:(lia)). lia. }
  unfold roundPos. set (e := Z.max (ilog2 n d - 52) (-1074)) in *.
  destruct (Z.leb_spec 0 e) as [Hpos|_]; [lia|].
  destruct (Z.ltb_spec 971 e) as [Hbig|_]; [lia|].
  destruct (Z.eqb_spec e 971) as [Heq|_]; [lia|]. cbn [orb andb].
  set (P := 2 ^ (- e)).
  assert (HP : 0 < P) by (apply Z.pow_pos_nonneg; lia).
  set (m := roundHalfEven (Zpos n * P) (Zpos d)).
  assert (Hm0 : 0 <= m).
  { apply (roundHalfEven_ge _ _ 0); lia. }
  assert (Hm1 : m <= B * P).
  { apply roundHalfEven_le; [lia|]. nia. }
  eexists. split; [reflexivity|].
  rewrite Qred_correct. unfold Qle. cbn [Qnum Qden inject_Z].
  rewrite Z2Pos.id by exact HP. split; lia.
Qed.

Lemma roundDouble_bounds x B :
  (0 <= x)%Q -> (x <= inject_Z B)%Q -> 0 < B -> Z.log2 B <= 50 ->
  exists q, roundDouble x = Fin q /\ (0 <= q)%Q /\ (q <= inject_Z B)%Q.
Proof.
  intros H0 HxB HB Hlog. unfold roundDouble.
  unfold Qle in H0, HxB. cbn [Qnum Qden inject_Z] in H0, HxB.
  destruct (Qnum x) as [|n|n] eqn:E; [| |lia].
  - exists 0%Q. split; [reflexivity|]. unfold Qle; cbn. lia.
  - apply roundPos_bounds; [exact HB|exact Hlog|lia].
Qed.

(** A quotient of equal integers rounds to exactly 1. *)
Lemma roundPos_same n : roundPos n n = Fin 1.
Proof.
  unfold roundPos, ilog2. rewrite Z.sub_diag. cbn [Z.leb Z.compare].
  change (2 ^ 0) with 1. rewrite Z.mul_1_r, Z.leb_refl.
  change (Z.max (0 - 52) (-1074)) with (-52). cbn [Z.leb Z.compare Z.ltb Z.eqb orb andb].
  change (- -52) with 52.
  assert (Hm : roundHalfEven (Zpos n * 2 ^ 52) (Zpos n) = 2 ^ 52).
  { unfold roundHalfEven. rewrite (Z.mul_comm (Zpos n)), Z.div_mul, Z.mod_mul by lia.
    reflexivity. }
  rewrite Hm. reflexivity.
Qed.

End RoundFacts.

Module ResultsDisplayFacts.
Import JsNum JsNumFacts ResultsDisplay.

(** C2. The grade is a function of the percentage alone and follows the
    banded table, each lower bound inclusive, the first matching band from
    the top winning: at least 93 gives S, from 85 up to (not including) 93
    gives A, from 75 gives B, from 60 gives C, from 35 gives D, below 35
    gives F. *)
Theorem getGrade_bands (p : number) :
  (ge p (of_Z 93) = true -> grade (getGrade p) = "S") /\
  (ge p (of_Z 85) = true -> lt p (of_Z 93) = true -> grade (getGrade p) = "A") /\
  (ge p (of_Z 75) = true -> lt p (of_Z 85) = true -> grade (getGrade p) = "B") /\
  (ge p (of_Z 60) = true -> lt p (of_Z 75) = true -> grade (getGrade p) = "C") /\
  (ge p (of_Z 35) = true -> lt p (of_Z 60) = true -> grade (getGrade p) = "D") /\
  (lt p (of_Z 35) = true -> grade (getGrade p) = "F").
Proof.
  unfold getGrade. repeat split.
  - intros ->. reflexivity.
  - intros H85 H93. apply lt_not_ge in H93. rewrite H93, H85. reflexivity.
  - intros H75 H85. rewrite (of_Z_lt_mono p 85 93), (lt_not_ge _ _ H85), H75 by (done || lia).
    reflexivity.
  - intros H60 H75.
    rewrite (of_Z_lt_mono p 75 93), (of_Z_lt_mono p 75 85), (lt_not_ge _ _ H75), H60
      by (done || lia).
    reflexivity.
  - intros H35 H60.
    rewrite (of_Z_lt_mono p 60 93), (of_Z_lt_mono p 60 85), (of_Z_lt_mono p 60 75),
      (lt_not_ge _ _ H60), H35 by (done || lia).
    reflexivity.
  - intros H35.
    rewrite (of_Z_lt_mono p 35 93), (of_Z_lt_mono p 35 85), (of_Z_lt_mono p 35 75),
      (of_Z_lt_mono p 35 60), (lt_not_ge _ _ H35) by (done || lia).
    reflexivity.
Qed.

(** The boundary values of the table, obtained from the band theorem. *)
Lemma getGrade_bands_witness :
  grade (getGrade (Fin 93)) = "S" /\
  grade (getGrade (Fin (92999 # 1000))) = "A" /\
  grade (getGrade (Fin 85)) = "A" /\
  grade (getGrade (Fin 60)) = "C" /\
  grade (getGrade (Fin (59999 # 1000))) = "D" /\
  grade (getGrade (Fin 35)) = "D" /\
  grade (getGrade (Fin (34999 # 1000))) = "F".
Proof.
  split; [apply (getGrade_bands (Fin 93)); reflexivity|].
  split; [apply (getGrade_bands (Fin (92999 # 1000))); reflexivity|].
  split; [apply (getGrade_bands (Fin 85)); reflexivity|].
  split; [apply (getGrade_bands (Fin 60)); reflexivity|].
  split; [apply (getGrade_bands (Fin (59999 # 1000))); reflexivity|].
  split; [apply (getGrade_bands (Fin 35)); reflexivity|].
  apply (getGrade_bands (Fin (34999 # 1000))); reflexivity.
Defined.

End ResultsDisplayFacts.

Module JsStringFacts.
Import JsString.

Lemma split_nonempty sep s : split sep s <> [].
Proof.
  destruct s as [|c s]; simpl; [discriminate|].
  destruct (Ascii.eqb c sep); [discriminate|].
  destruct (split sep s); discriminate.
Qed.

(** Splitting distributes over a separator: [(pre + sep + s).split(sep)]
    is [pre.split(sep)] followed by [s.split(sep)]. *)
Lemma split_app_sep sep pre s :
  split sep (pre +:+ String sep s) = (split sep pre ++ split sep s)%list.
Proof.
  induction pre as [|c pre IH]; simpl.
  - rewrite Ascii.eqb_refl. reflexivity.
  - destruct (Ascii.eqb c sep); [now rewrite IH|].
    rewrite IH. pose proof (split_nonempty sep pre) as Hne.
    destruct (split sep pre); [contradiction|reflexivity].
Qed.

Lemma split_no_sep sep s : contains sep s = false -> split sep s = [s].
Proof.
  unfold contains. induction s as [|c s IH]; simpl; [reflexivity|].
  intros H. apply orb_false_iff in H as [Hc Hs].
  rewrite Ascii.eqb_sym, Hc, (IH Hs). reflexivity.
Qed.

Lemma pop_split_after_dot pre e :
  contains "." e = false -> pop (split "." (pre +:+ String "." e)) = Some e.
Proof.
  intros He. unfold pop. rewrite split_app_sep, (split_no_sep _ _ He).
  apply last_snoc.
Qed.

Lemma lower_ascii_dot c : lower_ascii c = "."%char <-> c = "."%char.
Proof.
  destruct c as [[] [] [] [] [] [] [] []]; vm_compute; split; congruence.
Qed.

Lemma eqb_dot_lower c : Ascii.eqb "." (lower_ascii c) = Ascii.eqb "." c.
Proof.
  destruct c as [[] [] [] [] [] [] [] []]; reflexivity.
Qed.

Lemma contains_dot_lower s : contains "." (toLowerCase s) = contains "." s.
Proof.
  unfold contains. induction s as [|c s IH]; [reflexivity|].
  cbn [toLowerCase list_ascii_of_string existsb].
  now rewrite IH, eqb_dot_lower.
Qed.

Lemma includes_In a x : includes a x = true <-> In x a.
Proof.
  unfold includes. rewrite existsb_exists. split.
  - intros (y & Hy & Heq). apply String.eqb_eq in Heq. congruence.
  - intros H. exists x. split; [exact H|apply String.eqb_refl].
Qed.

End JsStringFacts.

Module FileUploadFacts.
Import JsString JsStringFacts FileUpload SpecWords.

(** The extension the check compares: for a name with a dot, the lowercased
    text after the last dot, with the dot put back. *)
Lemma fileExt_after_last_dot file pre e :
  File.name file = pre +:+ String "." e -> contains "." e = false ->
  fileExt file = "." +:+ toLowerCase e.
Proof.
  intros Hname He. unfold fileExt. rewrite Hname, (pop_split_after_dot _ _ He).
  reflexivity.
Qed.

(** A name without a dot is taken whole as its own extension. *)
Lemma fileExt_no_dot file :
  contains "." (File.name file) = false ->
  fileExt file = "." +:+ toLowerCase (File.name file).
Proof.
  intros H. unfold fileExt, pop. rewrite (split_no_sep _ _ H). reflexivity.
Qed.

Lemma extension_None s : extension s = None <-> contains "." s = false.
Proof.
  unfold contains. induction s as [|c s IH]; [simpl; tauto|].
  cbn [extension list_ascii_of_string existsb].
  rewrite (Ascii.eqb_sym "." c).
  destruct (extension s) as [e|].
  - split; [discriminate|]. intros H. apply orb_false_iff in H as [_ H].
    apply IH in H. discriminate.
  - destruct (Ascii.eqb c "."); cbn [orb]; [split; discriminate|]. tauto.
Qed.

Lemma extension_Some s e :
  extension s = Some e ->
  exists pre, s = pre +:+ String "." e /\ contains "." e = false.
Proof.
  revert e. induction s as [|c s IH]; intros e; [discriminate|].
  cbn [extension]. destruct (extension s) as [e'|] eqn:E.
  - intros [= <-]. destruct (IH _ eq_refl) as (pre & -> & He).
    exists (String c pre). auto.
  - destruct (Ascii.eqb_spec c "."); [|discriminate].
    intros [= <-]. subst c. exists EmptyString. split; [reflexivity|].
    now apply extension_None.
Qed.

(** On a name that contains a dot, the code's type check is the
    specification's: the extension is on the allow-list. *)
Lemma type_check_dotted file :
  contains "." (File.name file) = true ->
  includes allowedTypes (fileExt file) = extensionAllowed file.
Proof.
  intros Hdot. unfold extensionAllowed.
  destruct (extension (File.name file)) as [e|] eqn:E.
  - destruct (extension_Some _ _ E) as (pre & Hname & He).
    now rewrite (fileExt_after_last_dot file pre e Hname He).
  - apply extension_None in E. congruence.
Qed.

(** For names with a dot the validation is as specified: a file whose
    extension is off the allow-list or whose size is over the maximum is
    rejected with an error, nothing is selected and nothing is sent. *)
Lemma validate_rejects_dotted file st :
  contains "." (File.name file) = true ->
  extensionAllowed file = false \/ File.size file > maxSize ->
  exists msg, validateAndSetFile file st = (setError (Some msg) st, []).
Proof.
  intros Hdot H. unfold validateAndSetFile. rewrite (type_check_dotted _ Hdot).
  destruct (extensionAllowed file); simpl; [|eauto].
  destruct H as [H|H]; [discriminate|].
  apply Z.gtb_gt in H. rewrite H. eauto.
Qed.

(** The three upload scenarios. *)
Lemma validate_scenarios st :
  validateAndSetFile {| File.name := "notes.pdf"; File.size := 2 * MB |} st
    = (setSelectedFile (Some {| File.name := "notes.pdf"; File.size := 2 * MB |})
         (setError None st), []) /\
  validateAndSetFile {| File.name := "notes.pdf"; File.size := 12 * MB |} st
    = (setError (Some sizeError) st, []) /\
  validateAndSetFile {| File.name := "setup.exe"; File.size := 2 * MB |} st
    = (setError (Some typeError) st, []).
Proof. repeat split. Qed.

(** C5. The claim fails on a name without a dot: a file named [pdf] has no
    extension, so its extension is not on the allow-list, yet the code
    takes the whole name for the extension and accepts the file. *)
Theorem validate_accepts_dotless_name :
  let file := {| File.name := "pdf"; File.size := 2 * MB |} in
  extension (File.name file) = None /\
  extensionAllowed file = false /\
  fileExt file = ".pdf" /\
  validateAndSetFile file initial
    = ({| isDragging := false; isUploading := false; error := None;
          selectedFile := Some file |}, []) /\
  handleUpload (validateAndSetFile file initial).1
    = ({| isDragging := false; isUploading := true; error := None;
          selectedFile := Some file |}, [FetchUpload file]).
Proof. repeat split. Qed.

(** C10. The type check lowercases the text after the name's last dot
    before looking it up in the allow-list, so a file whose name ends in an
    allowed extension written in any mix of cases passes it: the file is
    selected with no error if its size is within the limit, and otherwise
    gets the size error, never the type error. The type check comes first:
    a file that fails it gets the type error whatever its size, and the
    selection is left as it was. *)
Theorem type_check_ignores_case file st :
  (forall pre e, File.name file = pre +:+ String "." e -> contains "." e = false ->
     fileExt file = "." +:+ toLowerCase e) /\
  (forall pre suf, File.name file = pre +:+ suf -> In (toLowerCase suf) allowedTypes ->
     (File.size file <= maxSize ->
        selectedFile (validateAndSetFile file st).1 = Some file /\
        error (validateAndSetFile file st).1 = None) /\
     (File.size file > maxSize ->
        selectedFile (validateAndSetFile file st).1 = selectedFile st /\
        error (validateAndSetFile file st).1 = Some sizeError)) /\
  (includes allowedTypes (fileExt file) = false ->
     error (validateAndSetFile file st).1 = Some typeError /\
     selectedFile (validateAndSetFile file st).1 = selectedFile st /\
     (validateAndSetFile file st).2 = []).
Proof.
  split; [|split].
  - intros pre e. apply fileExt_after_last_dot.
  - intros pre suf Hname Hin.
    assert (Hdot : exists e, suf = String "." e /\ contains "." e = false).
    { destruct suf as [|c e]; [simpl in Hin; intuition discriminate|].
      assert (Hc : lower_ascii c = "."%char).
      { simpl in Hin. destruct Hin as [H|[H|[H|[]]]]; now inversion H. }
      apply (proj1 (lower_ascii_dot c)) in Hc. subst c. exists e. split; [reflexivity|].
      rewrite <- contains_dot_lower.
      destruct Hin as [H|[H|[H|[]]]];
        apply (f_equal (fun s => match s with String _ t => t | _ => s end)) in H;
        cbn [toLowerCase] in H; rewrite <- H; reflexivity. }
    destruct Hdot as (e & -> & He).
    assert (Hpass : includes allowedTypes (fileExt file) = true).
    { rewrite (fileExt_after_last_dot file pre e Hname He).
      apply includes_In. exact Hin. }
    unfold validateAndSetFile. rewrite Hpass. cbn [negb]. split.
    + intros Hle. destruct (Z.gtb_spec (File.size file) maxSize); [lia|]. split; reflexivity.
    + intros Hgt. destruct (Z.gtb_spec (File.size file) maxSize); [|lia]. split; reflexivity.
  - intros H. unfold validateAndSetFile. rewrite H. repeat split.
Qed.

Lemma type_check_ignores_case_witness :
  selectedFile
    (validateAndSetFile {| File.name := "Lecture.Notes.PDF"; File.size := 2 * MB |} initial).1
  = Some {| File.name := "Lecture.Notes.PDF"; File.size := 2 * MB |} /\
  error
    (validateAndSetFile {| File.name := "essay.Docx"; File.size := 12 * MB |} initial).1
  = Some sizeError /\
  error
    (validateAndSetFile {| File.name := "setup.EXE"; File.size := 12 * MB |} initial).1
  = Some typeError.
Proof.
  split; [|split].
  - pose proof (type_check_ignores_case
                  {| File.name := "Lecture.Notes.PDF"; File.size := 2 * MB |} initial)
      as (_ & Hcase & _).
    destruct (Hcase "Lecture.Notes" ".PDF") as [Hok _]; [reflexivity|simpl; tauto|].
    apply Hok. vm_compute. discriminate.
  - pose proof (type_check_ignores_case
                  {| File.name := "essay.Docx"; File.size := 12 * MB |} initial)
      as (_ & Hcase & _).
    destruct (Hcase "essay" ".Docx") as [_ Hbig]; [reflexivity|simpl; tauto|].
    apply Hbig. reflexivity.
  - pose proof (type_check_ignores_case
                  {| File.name := "setup.EXE"; File.size := 12 * MB |} initial)
      as (_ & _ & Htype).
    apply Htype. reflexivity.
Defined.

End FileUploadFacts.

Module QuizInterfaceFacts.
Import JsNum JsString QuizInterface SpecWords.

(** *** Navigation *)

Lemma jumpButtons_lookup qs k :
  jumpButtons qs !! k = (fun _ => setCurrentQuestion (Z.of_nat k)) <$> qs !! k.
Proof. unfold jumpButtons. apply list_lookup_imap. Qed.

Lemma jumpTo_in_range qs k st :
  (k < length qs)%nat -> jumpTo qs k st = setCurrentQuestion (Z.of_nat k) st.
Proof.
  intros Hk. unfold jumpTo. rewrite jumpButtons_lookup.
  destruct (lookup_lt_is_Some_2 qs k Hk) as [q ->]. reflexivity.
Qed.

Lemma jumpTo_out_of_range qs k st :
  (length qs <= k)%nat -> jumpTo qs k st = st.
Proof.
  intros Hk. unfold jumpTo. rewrite jumpButtons_lookup.
  rewrite (lookup_ge_None_2 qs k Hk). reflexivity.
Qed.

Lemma navStep_in_range qs e st : in_range qs st -> in_range qs (navStep qs e st).
Proof.
  unfold in_range. intros H. destruct e as [| |k]; simpl.
  - unfold handleNext. destruct (Z.ltb_spec (currentQuestion st) (Z.of_nat (length qs) - 1));
      simpl; lia.
  - unfold handlePrevious. rewrite Z.gtb_ltb.
    destruct (Z.ltb_spec 0 (currentQuestion st)); simpl; lia.
  - destruct (Nat.lt_ge_cases k (length qs)) as [Hk|Hk].
    + rewrite (jumpTo_in_range _ _ _ Hk). simpl. lia.
    + rewrite (jumpTo_out_of_range _ _ _ Hk). lia.
Qed.

Lemma navRun_in_range qs es st : in_range qs st -> in_range qs (navRun qs es st).
Proof.
  unfold navRun. revert st. induction es as [|e es IH]; intros st H; simpl; [exact H|].
  apply IH, navStep_in_range, H.
Qed.

(** Navigation is positional: it never touches the answers or the export
    flag. *)
Lemma navStep_frame qs e st :
  answers (navStep qs e st) = answers st /\ exporting (navStep qs e st) = exporting st.
Proof.
  destruct e as [| |k]; simpl.
  - unfold handleNext. destruct (_ <? _); split; reflexivity.
  - unfold handlePrevious. destruct (_ >? _); split; reflexivity.
  - unfold jumpTo. rewrite jumpButtons_lookup.
    destruct (qs !! k); split; reflexivity.
Qed.

(** C4. [next] at the last index does nothing and below it adds exactly
    one to the cursor; [previous] at index 0 does nothing and above it
    subtracts exactly one; a jump to an index for which no button exists
    does nothing, a jump to an index in range puts the cursor on it; none
    of the three touches the answers or the export flag; so from cursor 0
    on a non-empty question list every sequence of next, previous and jump
    leaves the cursor within [0, length - 1]. *)
Theorem navigation_cursor_invariant (qs : list Question) :
  (forall st, currentQuestion st = Z.of_nat (length qs) - 1 -> handleNext qs st = st) /\
  (forall st, currentQuestion st < Z.of_nat (length qs) - 1 ->
     currentQuestion (handleNext qs st) = currentQuestion st + 1) /\
  (forall st, currentQuestion st = 0 -> handlePrevious st = st) /\
  (forall st, currentQuestion st > 0 ->
     currentQuestion (handlePrevious st) = currentQuestion st - 1) /\
  (forall k st, (length qs <= k)%nat -> jumpTo qs k st = st) /\
  (forall k st, (k < length qs)%nat -> currentQuestion (jumpTo qs k st) = Z.of_nat k) /\
  (forall e st, answers (navStep qs e st) = answers st /\
                exporting (navStep qs e st) = exporting st) /\
  (qs <> [] -> forall es,
     0 <= currentQuestion (navRun qs es initial) <= Z.of_nat (length qs) - 1).
Proof.
  split; [|split; [|split; [|split; [|split; [|split; [|split]]]]]].
  - intros st H. unfold handleNext. rewrite H, Z.ltb_irrefl. reflexivity.
  - intros st H. unfold handleNext. apply Z.ltb_lt in H. rewrite H. reflexivity.
  - intros st H. unfold handlePrevious. rewrite H. reflexivity.
  - intros st H. unfold handlePrevious. apply Z.gtb_gt in H. rewrite H. reflexivity.
  - intros k st. apply jumpTo_out_of_range.
  - intros k st Hk. rewrite (jumpTo_in_range _ _ _ Hk). reflexivity.
  - intros e st. apply navStep_frame.
  - intros Hne es.
    assert (Hinit : in_range qs initial).
    { unfold in_range. simpl. destruct qs; [contradiction|]. simpl length. lia. }
    apply (navRun_in_range qs es) in Hinit. unfold in_range in Hinit. lia.
Qed.

Lemma navigation_cursor_invariant_witness :
  currentQuestion (handleNext Samples.five (setCurrentQuestion 4 initial)) = 4 /\
  currentQuestion (handleNext Samples.five (setCurrentQuestion 1 initial)) = 2 /\
  currentQuestion (handlePrevious initial) = 0 /\
  currentQuestion (handlePrevious (setCurrentQuestion 3 initial)) = 2 /\
  currentQuestion (jumpTo Samples.five 5 (setCurrentQuestion 3 initial)) = 3 /\
  currentQuestion (jumpTo Samples.five 4 initial) = 4 /\
  answers (handleNext Samples.five Samples.threeAnswered) = answers Samples.threeAnswered /\
  0 <= currentQuestion
         (navRun Samples.five [Previous; Jump 3; Next; Next; Next; Jump 9; Previous] initial)
    <= Z.of_nat (length Samples.five) - 1.
Proof.
  pose proof (navigation_cursor_invariant Samples.five)
    as (Hlast & Hnext & Hfirst & Hprev & Hout & Hin & Hframe & Hrun).
  split; [rewrite (Hlast (setCurrentQuestion 4 initial)); reflexivity|].
  split; [rewrite (Hnext (setCurrentQuestion 1 initial)); [reflexivity|simpl; lia]|].
  split; [rewrite (Hfirst initial); reflexivity|].
  split; [rewrite (Hprev (setCurrentQuestion 3 initial)); [reflexivity|simpl; lia]|].
  split; [rewrite (Hout 5%nat (setCurrentQuestion 3 initial)); [reflexivity|simpl; lia]|].
  split; [rewrite (Hin 4%nat initial); [reflexivity|simpl; lia]|].
  split; [apply (Hframe Next Samples.threeAnswered)|].
  apply Hrun. discriminate.
Defined.

(** *** The answer map *)

(** C8. Selecting option [o] for question [q] leaves a map whose entry for
    [q] is exactly [o], whether or not [q] had an entry before (its keys are
    the old keys and [q], so there is one entry per question id), and whose
    entry for every other question id is what it was; the cursor and the
    export flag are not touched. *)
Theorem handleAnswer_overwrites (q o : string) (st : state) :
  answers (handleAnswer q o st) !! q = Some o /\
  (forall q', q' <> q -> answers (handleAnswer q o st) !! q' = answers st !! q') /\
  dom (answers (handleAnswer q o st)) = {[q]} ∪ dom (answers st) /\
  (is_Some (answers st !! q) ->
     size (answers (handleAnswer q o st)) = size (answers st)) /\
  currentQuestion (handleAnswer q o st) = currentQuestion st /\
  exporting (handleAnswer q o st) = exporting st.
Proof.
  unfold handleAnswer, setAnswers; simpl. repeat split.
  - apply lookup_insert_eq.
  - intros q' Hne. apply lookup_insert_ne. congruence.
  - apply dom_insert_L.
  - intros Hsome. now apply map_size_insert_Some.
Qed.

Lemma handleAnswer_overwrites_witness :
  answers (handleAnswer "q2" "D" Samples.threeAnswered) !! "q2" = Some "D" /\
  answers (handleAnswer "q2" "D" Samples.threeAnswered) !! "q1" = Some "A" /\
  answers (handleAnswer "q2" "D" Samples.threeAnswered) !! "q3" = None /\
  size (answers (handleAnswer "q2" "D" Samples.threeAnswered)) = 3%nat.
Proof.
  pose proof (handleAnswer_overwrites "q2" "D" Samples.threeAnswered)
    as (Hq & Hother & _ & Hsize & _).
  split; [exact Hq|].
  split; [rewrite (Hother "q1"); [reflexivity|discriminate]|].
  split; [rewrite (Hother "q3"); [reflexivity|discriminate]|].
  rewrite Hsize; [reflexivity|]. exists "C". vm_compute. reflexivity.
Defined.

Lemma Object_keys_NoDup (o : gmap string string) : NoDup (Object_keys o).
Proof. apply NoDup_fst_map_to_list. Qed.

Lemma Object_keys_elem (o : gmap string string) k : k ∈ Object_keys o <-> is_Some (o !! k).
Proof.
  unfold Object_keys. rewrite list_elem_of_fmap. split.
  - intros ([k' v] & -> & Hin). apply elem_of_map_to_list in Hin. eauto.
  - intros [v Hv]. exists (k, v). split; [reflexivity|]. now apply elem_of_map_to_list.
Qed.

Lemma answeredCount_size st : answeredCount st = size (dom (answers st)).
Proof.
  unfold answeredCount, Object_keys.
  rewrite length_fmap, length_map_to_list, size_dom. reflexivity.
Qed.

Lemma of_nat_nonzero n : (0 < n)%nat -> Qeq_bool (inject_Z (Z.of_nat n)) 0 = false.
Proof.
  intros Hn. destruct (Qeq_bool _ _) eqn:E; [|reflexivity].
  apply Qeq_bool_eq in E. unfold Qeq in E. simpl in E. lia.
Qed.

Lemma quotient_in_unit a l :
  0 <= a <= l -> 0 < l ->
  (0 <= inject_Z a / inject_Z l)%Q /\ (inject_Z a / inject_Z l <= inject_Z 1)%Q.
Proof.
  intros Ha Hl. destruct l as [|p|p]; try lia.
  unfold Qle, Qdiv, Qmult, Qinv, inject_Z. cbn. split; nia.
Qed.

Lemma progress_unfold qs st :
  (0 < length qs)%nat ->
  progress qs st
  = mul (roundDouble (inject_Z (Z.of_nat (answeredCount st))
                      / inject_Z (Z.of_nat (length qs)))) (of_Z 100).
Proof.
  intros Hlen. unfold progress, of_nat. cbn [div].
  now rewrite (of_nat_nonzero _ Hlen).
Qed.

(** With at least one question and no more answers than questions, the
    progress value is a finite number between 0 and 100: neither rounding
    leaves the interval. *)
Lemma progress_in_bounds qs st :
  (0 < length qs)%nat -> (answeredCount st <= length qs)%nat ->
  exists q, progress qs st = Fin q /\ (0 <= q)%Q /\ (q <= 100)%Q.
Proof.
  intros Hlen Hle. rewrite (progress_unfold _ _ Hlen).
  destruct (quotient_in_unit (Z.of_nat (answeredCount st)) (Z.of_nat (length qs)))
    as [H0 H1]; [lia|lia|].
  destruct (RoundFacts.roundDouble_bounds _ 1 H0 H1) as (r & -> & Hr0 & Hr1);
    [lia|cbn; lia|].
  unfold of_Z. cbn [mul].
  apply (RoundFacts.roundDouble_bounds (r * inject_Z 100) 100); [| |lia|cbn; lia].
  - unfold Qle in *. cbn in *. nia.
  - unfold Qle in *. cbn in *. nia.
Qed.

Lemma progress_none_answered qs st :
  (0 < length qs)%nat -> answeredCount st = 0%nat -> progress qs st = Fin 0.
Proof.
  intros Hlen Ha. rewrite (progress_unfold _ _ Hlen), Ha. reflexivity.
Qed.

Lemma progress_all_answered qs st :
  (0 < length qs)%nat -> answeredCount st = length qs -> progress qs st = Fin 100.
Proof.
  intros Hlen Ha. rewrite (progress_unfold _ _ Hlen), Ha.
  destruct (length qs) as [|n]; [lia|].
  change (Z.of_nat (S n)) with (Z.pos (Pos.of_succ_nat n)).
  unfold roundDouble, Qdiv, Qmult, Qinv, inject_Z. cbn [Qnum Qden Z.mul].
  rewrite Z.mul_1_r, Pos.mul_1_l, RoundFacts.roundPos_same. reflexivity.
Qed.

(** C7, as the code has it. The answered count is the number of distinct
    keys of the answer map. With at least one question the progress value
    is that count divided by the number of questions, the quotient rounded
    to a double, then multiplied by 100 and rounded again: a percentage. It
    is exactly 0 when nothing is answered, exactly 100 when the count
    equals the number of questions, and between 0 and 100 whenever the count
    is at most the number of questions. Nothing defines it as 0 for an
    empty question list: there the division is 0/0 and the value is not a
    number. *)
Theorem answeredCount_progress (qs : list Question) (st : state) :
  answeredCount st = size (dom (answers st)) /\
  NoDup (Object_keys (answers st)) /\
  (forall k, k ∈ Object_keys (answers st) <-> is_Some (answers st !! k)) /\
  ((0 < length qs)%nat ->
     progress qs st
     = mul (roundDouble (inject_Z (Z.of_nat (answeredCount st))
                         / inject_Z (Z.of_nat (length qs)))) (of_Z 100)) /\
  ((0 < length qs)%nat -> (answeredCount st <= length qs)%nat ->
     exists q, progress qs st = Fin q /\ (0 <= q)%Q /\ (q <= 100)%Q) /\
  ((0 < length qs)%nat -> answeredCount st = 0%nat -> progress qs st = Fin 0) /\
  ((0 < length qs)%nat -> answeredCount st = length qs -> progress qs st = Fin 100) /\
  (length qs = 0%nat -> answeredCount st = 0%nat -> progress qs st = NaN).
Proof.
  split; [apply answeredCount_size|].
  split; [apply Object_keys_NoDup|].
  split; [apply Object_keys_elem|].
  split; [apply progress_unfold|].
  split; [apply progress_in_bounds|].
  split; [apply progress_none_answered|].
  split; [apply progress_all_answered|].
  unfold progress. intros -> ->. reflexivity.
Qed.

(** One of three answered shows 33.33333333333333, the double
    2345624805922133 / 2^46, and not the rational 100/3; three of five
    shows exactly 60. *)
Lemma answeredCount_progress_witness :
  progress Samples.three Samples.oneAnswered = Fin (2345624805922133 # 70368744177664) /\
  progress Samples.five Samples.threeAnswered = Fin 60 /\
  (exists q, progress Samples.five Samples.threeAnswered = Fin q /\ (0 <= q)%Q /\ (q <= 100)%Q) /\
  progress Samples.five initial = Fin 0 /\
  progress [] initial = NaN.
Proof.
  pose proof (answeredCount_progress Samples.three Samples.oneAnswered)
    as (_ & _ & _ & Hthird & _).
  pose proof (answeredCount_progress Samples.five Samples.threeAnswered)
    as (_ & _ & _ & Hfifths & Hbounds & _).
  pose proof (answeredCount_progress Samples.five initial)
    as (_ & _ & _ & _ & _ & Hnone & _).
  pose proof (answeredCount_progress [] initial)
    as (_ & _ & _ & _ & _ & _ & _ & Hnan).
  split; [rewrite Hthird by (simpl; lia); vm_compute; reflexivity|].
  split; [rewrite Hfifths by (simpl; lia); vm_compute; reflexivity|].
  split; [apply Hbounds; [simpl; lia|vm_compute; lia]|].
  split; [apply Hnone; [simpl; lia|reflexivity]|].
  apply Hnan; reflexivity.
Defined.

(** C7 as stated fails: with no questions the progress value is not 0, it
    is not even a finite number. *)
Lemma progress_no_questions_not_zero :
  length ([] : list Question) = 0%nat /\
  progress [] initial = NaN /\
  progress [] initial <> of_Z 0 /\
  is_finite (progress [] initial) = false.
Proof. repeat split. discriminate. Qed.

(** *** Submission *)

Lemma labelled_truthy o k :
  labelled o -> includes JsObject.objectPrototype k = false ->
  JsObject.truthy (JsObject.get o k) = bool_decide (k ∈ dom o).
Proof.
  intros Hl Hk. unfold JsObject.get. destruct (o !! k) as [v|] eqn:E.
  - rewrite bool_decide_eq_true_2 by (apply elem_of_dom; eauto).
    apply Hl in E. apply list_elem_of_In in E. simpl in E.
    destruct E as [<-|[<-|[<-|[<-|[]]]]]; reflexivity.
  - rewrite Hk, bool_decide_eq_false_2; [reflexivity|].
    rewrite elem_of_dom, E. intros [? ?]; discriminate.
Qed.

Lemma clickOption_labelled qs k st : labelled (answers st) -> labelled (answers (clickOption qs k st)).
Proof.
  intros Hl. unfold clickOption.
  destruct (qs !! _) as [q|]; [|exact Hl].
  destruct (optionLabels !! k) as [o|] eqn:Ho; [|exact Hl].
  destruct (_ <? 0); [exact Hl|].
  simpl. intros k' v. destruct (decide (id q = k')) as [<-|Hne].
  - rewrite lookup_insert_eq. intros [= <-].
    apply list_elem_of_lookup. eauto.
  - rewrite lookup_insert_ne by exact Hne. apply Hl.
Qed.

(** What the code counts, the questions under whose id the answer object
    yields nothing truthy, is the specification's count when question ids
    are pairwise distinct and none of them names an inherited property. *)
Lemma unanswered_length qs st :
  NoDup (id <$> qs) -> plainIds qs -> labelled (answers st) ->
  length (unanswered qs st) = unansweredCount qs (answers st).
Proof.
  intros Hnd Hplain Hl. unfold unanswered, unansweredCount.
  enough (H : (length (List.filter
                         (fun q => negb (JsObject.truthy (JsObject.get (answers st) (id q))))
                         qs)
               + size (dom (answers st) ∩ list_to_set (id <$> qs) : gset string)
               = length qs)%nat) by lia.
  induction qs as [|q qs IH].
  { cbn [List.filter length fmap list_fmap list_to_set].
    now rewrite intersection_empty_r_L, size_empty. }
  rewrite fmap_cons in Hnd. apply NoDup_cons in Hnd as [Hq Hnd].
  apply Forall_cons in Hplain as [Hpq Hplain].
  specialize (IH Hnd Hplain). rewrite fmap_cons, list_to_set_cons. cbn [List.filter length].
  rewrite (labelled_truthy _ _ Hl Hpq).
  assert (Hnot : id q ∉ (dom (answers st) ∩ list_to_set (id <$> qs) : gset string)).
  { rewrite elem_of_intersection, elem_of_list_to_set. tauto. }
  destruct (decide (id q ∈ dom (answers st))) as [Hin|Hout].
  - rewrite bool_decide_eq_true_2 by exact Hin. cbn [negb].
    replace (dom (answers st) ∩ ({[id q]} ∪ list_to_set (id <$> qs)) : gset string)
      with ({[id q]} ∪ (dom (answers st) ∩ list_to_set (id <$> qs)) : gset string).
    + rewrite size_union, size_singleton; [lia|].
      apply disjoint_singleton_l. exact Hnot.
    + apply set_eq. intros x.
      rewrite !elem_of_union, !elem_of_intersection, elem_of_union, !elem_of_singleton.
      split; [intros [->|[? ?]]; tauto|tauto].
  - rewrite bool_decide_eq_false_2 by exact Hout. cbn [negb length].
    replace (dom (answers st) ∩ ({[id q]} ∪ list_to_set (id <$> qs)) : gset string)
      with (dom (answers st) ∩ list_to_set (id <$> qs) : gset string); [lia|].
    apply set_eq. intros x.
    rewrite !elem_of_intersection, elem_of_union, elem_of_singleton.
    split; [tauto|]. intros [Hx [->|Hx']]; tauto.
Qed.

(** A question whose id names an inherited property counts as answered
    although the answer map has no entry for it. *)
Lemma unanswered_inherited_id :
  unanswered [Samples.question "constructor" "one?"] initial = [] /\
  unansweredCount [Samples.question "constructor" "one?"] (answers initial) = 1%nat.
Proof. split; reflexivity. Qed.

Lemma handleSubmit_spec qs onSubmit confirm st :
  handleSubmit qs onSubmit confirm st =
  (st,
   match length (unanswered qs st) with
   | O => onSubmit (answers st)
   | S _ =>
       let msg := confirmMessage (length (unanswered qs st)) in
       if confirm msg then WindowConfirm msg :: onSubmit (answers st)
       else [WindowConfirm msg]
   end).
Proof.
  unfold handleSubmit. destruct (length (unanswered qs st)) as [|n]; [reflexivity|].
  cbn [Nat.ltb Nat.leb]. destruct (confirm _); reflexivity.
Qed.

(** *** Export *)

Lemma clickOption_exporting qs k st : exporting (clickOption qs k st) = exporting st.
Proof.
  unfold clickOption. destruct (qs !! _); [|reflexivity].
  destruct (optionLabels !! k); [|reflexivity].
  destruct (_ <? 0); reflexivity.
Qed.


(** Every answer map the component can reach holds option labels only. *)
Lemma sessionRun_labelled qs sid es c :
  labelled (answers (ui c)) -> labelled (answers (ui (sessionRun qs sid es c))).
Proof.
  unfold sessionRun. revert c. induction es as [|e es IH]; intros c Hc; [exact Hc|].
  simpl. apply IH. destruct c as [st n]. simpl in *.
  destruct e as [|e|k|r]; simpl.
  - unfold clickExport. destruct (exporting st); exact Hc.
  - now rewrite (proj1 (navStep_frame qs e st)).
  - now apply clickOption_labelled.
  - destruct n as [|n]; [exact Hc|]. destruct r as [[] ?|?]; exact Hc.
Qed.




End QuizInterfaceFacts.

Module AppFacts.
Import JsNum JsString App SpecWords.

Lemma clickSubmit_state confirm st : (clickSubmit confirm st).1 = st.
Proof.
  unfold clickSubmit. destruct (quizInterface st) as [q|] eqn:E; [|reflexivity].
  rewrite QuizInterfaceFacts.handleSubmit_spec. destruct st; simpl in *. now subst.
Qed.

(** C3, as the code has it. For question ids that are pairwise distinct
    and none of which names an inherited object property, and for an
    answer map of option labels, the submit button acts on the unanswered
    count, the number of questions less the number of answered question
    ids: at zero the scoring call is issued with the current answers and no
    dialog; at one or more the dialog "You have n unanswered question(s).
    Submit anyway?" with exactly that count comes first, the call follows
    only if the user confirms, and declining issues no call; in every case
    the state (phase, cursor, answer map) is left as it was. *)
Theorem submission_policy (confirm : string -> bool) (st : state)
    (q : QuizInterface.state) :
  quizInterface st = Some q ->
  NoDup (QuizInterface.id <$> questions st) ->
  QuizInterface.plainIds (questions st) ->
  QuizInterface.labelled (QuizInterface.answers q) ->
  let n := unansweredCount (questions st) (QuizInterface.answers q) in
  let text := "You have " +:+ pretty n +:+ " unanswered question(s). Submit anyway?" in
  let call := FetchSubmitQuiz (sessionId st) (QuizInterface.answers q) in
  (n = 0%nat -> clickSubmit confirm st = (st, [call])) /\
  ((1 <= n)%nat -> confirm text = true ->
     clickSubmit confirm st = (st, [WindowConfirm text; call])) /\
  ((1 <= n)%nat -> confirm text = false ->
     clickSubmit confirm st = (st, [WindowConfirm text])).
Proof.
  intros Hq Hnd Hplain Hl n text call.
  pose proof (clickSubmit_state confirm st) as Hst.
  assert (Heff : (clickSubmit confirm st).2 =
                 match n with
                 | O => [call]
                 | S _ => if confirm text then [WindowConfirm text; call]
                          else [WindowConfirm text]
                 end).
  { unfold clickSubmit. rewrite Hq, QuizInterfaceFacts.handleSubmit_spec.
    cbn [snd]. rewrite (QuizInterfaceFacts.unanswered_length _ _ Hnd Hplain Hl).
    fold n. destruct n; reflexivity. }
  destruct (clickSubmit confirm st) as [st' effs]. simpl in Hst, Heff. subst st' effs.
  repeat split.
  - intros ->. reflexivity.
  - intros Hn ->. destruct n; [lia|reflexivity].
  - intros Hn ->. destruct n; [lia|reflexivity].
Qed.

(** Five questions, three answered: the dialog cites exactly 2, and
    declining keeps the state and sends nothing. *)
Lemma submission_policy_witness :
  clickSubmit Scenarios.declines Scenarios.taking
    = (Scenarios.taking,
       [WindowConfirm "You have 2 unanswered question(s). Submit anyway?"]) /\
  clickSubmit Scenarios.confirms Scenarios.taking
    = (Scenarios.taking,
       [WindowConfirm "You have 2 unanswered question(s). Submit anyway?";
        FetchSubmitQuiz "s-1" (QuizInterface.answers Samples.threeAnswered)]).
Proof.
  assert (Hnd : NoDup (QuizInterface.id <$> questions Scenarios.taking)).
  { apply (bool_decide_unpack _). vm_compute. reflexivity. }
  assert (Hplain : QuizInterface.plainIds (questions Scenarios.taking)).
  { repeat constructor. }
  assert (Hl : QuizInterface.labelled (QuizInterface.answers Samples.threeAnswered)).
  { apply (bool_decide_unpack _). vm_compute. reflexivity. }
  split.
  - apply (submission_policy Scenarios.declines Scenarios.taking Samples.threeAnswered
             eq_refl Hnd Hplain Hl); [vm_compute; lia|reflexivity].
  - apply (submission_policy Scenarios.confirms Scenarios.taking Samples.threeAnswered
             eq_refl Hnd Hplain Hl); [vm_compute; lia|reflexivity].
Defined.

(** C3 as stated fails on a question list with a repeated id. Two
    questions share the id [q1] and the answer map has the one key [q1]:
    the number of questions less the number of answered ids is 1, yet the
    code finds no question without an answer and issues the scoring call
    with no dialog. *)
Lemma submit_without_dialog_on_shared_id :
  unansweredCount (questions Scenarios.twinsTaking)
    (QuizInterface.answers Samples.twinAnswered) = 1%nat /\
  QuizInterface.labelled (QuizInterface.answers Samples.twinAnswered) /\
  quizInterface Scenarios.twinsTaking = Some Samples.twinAnswered /\
  clickSubmit Scenarios.declines Scenarios.twinsTaking
    = (Scenarios.twinsTaking,
       [FetchSubmitQuiz "s-1" (QuizInterface.answers Samples.twinAnswered)]).
Proof.
  split; [vm_compute; reflexivity|].
  split; [apply (bool_decide_unpack _); vm_compute; reflexivity|].
  split; reflexivity.
Qed.

(** C6. Restart, from any state, leaves the wizard in the Upload phase with
    empty file id, file name and session id, no questions, no result and no
    error; the quiz component is unmounted, so no answer and no cursor
    survive, and the quiz that is next entered starts from the empty answer
    map and cursor 0. *)
Theorem handleRestart_resets (st : state) :
  phase (handleRestart st) = upload /\
  fileId (handleRestart st) = "" /\
  fileName (handleRestart st) = "" /\
  questions (handleRestart st) = [] /\
  sessionId (handleRestart st) = "" /\
  quizResults (handleRestart st) = None /\
  error (handleRestart st) = None /\
  quizInterface (handleRestart st) = None /\
  resultsDisplay (handleRestart st) = None /\
  (forall id name qs sid,
     let st' := handleQuestionsGenerated qs sid
                  (handleFileUploaded id name (handleRestart st)) in
     answerMap st' = Some ∅ /\ navigationCursor st' = Some 0).
Proof. repeat split. Qed.

(** *** The response to a submission *)

(** C1 as stated fails: submit in session [s-1], restart, then let the
    scoring reply arrive. The request was sent for [s-1], the session is
    now empty, and still the reply is applied: the wizard shows the
    results. *)
Lemma stale_response_is_applied :
  let restarted := handleRestart Scenarios.taking in
  handleQuizSubmit (QuizInterface.answers Samples.threeAnswered) Scenarios.taking
    = [FetchSubmitQuiz "s-1" (QuizInterface.answers Samples.threeAnswered)] /\
  sessionId restarted = "" /\
  phase restarted = upload /\
  phase (handleQuizSubmit_resume (inl Scenarios.reply) restarted) = results /\
  quizResults (handleQuizSubmit_resume (inl Scenarios.reply) restarted)
    = Some Scenarios.scored /\
  ~ stale_responses_discarded.
Proof.
  repeat split.
  intros H.
  specialize (H "s-1" (inl Scenarios.reply) (handleRestart Scenarios.taking)).
  assert (Hne : "s-1" <> sessionId (handleRestart Scenarios.taking)) by discriminate.
  apply H in Hne. apply (f_equal phase) in Hne. discriminate.
Qed.

(** C1, as the code has it. The reply to a submission is applied to the
    state that is current when it arrives, and nothing in it is compared
    with the current session: a successful reply with data stores the
    result, moves the wizard to the Results phase and clears the error; any
    other reply, or a thrown error, sets the error message and leaves the
    phase and the result as they are. File, questions and session identity
    are never touched. *)
Theorem submit_reply_applied_on_arrival (r : ApiResponse + string) (st : state) :
  let st' := handleQuizSubmit_resume r st in
  fileId st' = fileId st /\ fileName st' = fileName st /\
  questions st' = questions st /\ sessionId st' = sessionId st /\
  match r with
  | inl {| success := true; data := Some d |} =>
      phase st' = results /\ quizResults st' = Some d /\ error st' = None
  | inl response =>
      phase st' = phase st /\ quizResults st' = quizResults st /\
      error st' = Some (or_else (api_error response) "Failed to submit quiz")
  | inr message =>
      phase st' = phase st /\ quizResults st' = quizResults st /\
      error st' = Some message
  end.
Proof.
  destruct r as [[[] [d|] e]|msg]; repeat split.
Qed.

End AppFacts.

(** ** Beyond the claims: the upload component *)
Module FileUploadFlowFacts.
Import JsString FileUpload FileUploadFlow.

Lemma validate_outcome file st :
  (valid file /\
   validateAndSetFile file st = (setSelectedFile (Some file) (setError None st), [])) \/
  (~ valid file /\ exists msg,
   validateAndSetFile file st = (setError (Some msg) st, [])).
Proof.
  unfold validateAndSetFile, valid.
  destruct (includes allowedTypes (fileExt file)); simpl.
  - destruct (Z.gtb_spec (File.size file) maxSize) as [Hgt|Hle].
    + right. split; [lia|eauto].
    + left. auto.
  - right. split; [intros [? _]; discriminate|eauto].
Qed.

(** X1. A file is accepted exactly when the lowercased text after its
    name's last dot (the whole name if there is no dot) is on the
    allow-list and its size is at most 10 MB: the size bound is inclusive,
    a file of exactly 10485760 bytes is accepted. A rejected file leaves
    the earlier selection in place; an accepted one replaces it and clears
    the error. Neither changes the drag and upload flags. *)
Theorem validateAndSetFile_accepts_iff (file : File) (st : state) :
  (error (validateAndSetFile file st).1 = None <-> valid file) /\
  (valid file -> selectedFile (validateAndSetFile file st).1 = Some file) /\
  (~ valid file ->
     selectedFile (validateAndSetFile file st).1 = selectedFile st /\
     (error (validateAndSetFile file st).1 = Some typeError \/
      error (validateAndSetFile file st).1 = Some sizeError)) /\
  (includes allowedTypes (fileExt file) = true -> File.size file = maxSize -> valid file) /\
  isDragging (validateAndSetFile file st).1 = isDragging st /\
  isUploading (validateAndSetFile file st).1 = isUploading st.
Proof.
  assert (Hflags : isDragging (validateAndSetFile file st).1 = isDragging st /\
                   isUploading (validateAndSetFile file st).1 = isUploading st).
  { unfold validateAndSetFile. destruct (negb _); [auto|]. destruct (_ >? _); auto. }
  split; [|split; [|split; [|split; [|exact Hflags]]]].
  - destruct (validate_outcome file st) as [[Hv ->]|[Hn [msg ->]]]; simpl.
    + tauto.
    + split; [discriminate|contradiction].
  - intros Hv. destruct (validate_outcome file st) as [[_ ->]|[Hn _]];
      [reflexivity|contradiction].
  - intros Hn. unfold validateAndSetFile, valid in *.
    destruct (includes allowedTypes (fileExt file)); simpl; [|auto].
    destruct (Z.gtb_spec (File.size file) maxSize); simpl; [auto|].
    exfalso. apply Hn. auto.
  - intros Hinc Hsize. split; [exact Hinc|lia].
Qed.

Lemma validateAndSetFile_accepts_iff_witness :
  let exact := {| File.name := "book.pdf"; File.size := 10485760 |} in
  let over := {| File.name := "book.pdf"; File.size := 10485761 |} in
  let chosen := (validateAndSetFile exact initial).1 in
  selectedFile chosen = Some exact /\
  selectedFile (validateAndSetFile over chosen).1 = Some exact /\
  error (validateAndSetFile over chosen).1 = Some sizeError.
Proof.
  cbv zeta.
  pose proof (validateAndSetFile_accepts_iff
                {| File.name := "book.pdf"; File.size := 10485760 |} initial)
    as (_ & Hacc & _ & Hbound & _).
  assert (Hv : valid {| File.name := "book.pdf"; File.size := 10485760 |})
    by (apply Hbound; reflexivity).
  split; [exact (Hacc Hv)|].
  pose proof (validateAndSetFile_accepts_iff
                {| File.name := "book.pdf"; File.size := 10485761 |}
                (validateAndSetFile {| File.name := "book.pdf"; File.size := 10485760 |}
                   initial).1)
    as (_ & _ & Hrej & _).
  assert (Hn : ~ valid {| File.name := "book.pdf"; File.size := 10485761 |}).
  { intros [_ H]. vm_compute in H. apply H. reflexivity. }
  destruct (Hrej Hn) as [Hsel Herr]. split; [rewrite Hsel; exact (Hacc Hv)|].
  destruct Herr as [Herr|Herr]; [vm_compute in Herr; discriminate|exact Herr].
Defined.

Lemma validate_selectionValid file st :
  (forall f, selectedFile st = Some f -> valid f) ->
  forall f, selectedFile (validateAndSetFile file st).1 = Some f -> valid f.
Proof.
  intros Hst f. destruct (validate_outcome file st) as [[Hv ->]|[_ [msg ->]]]; simpl.
  - intros [= <-]. exact Hv.
  - apply Hst.
Qed.

Lemma step_selectionValid e c :
  selectionValid c ->
  selectionValid (step e c).1 /\
  Forall (fun eff => forall f, eff = FetchUpload f -> valid f) (step e c).2.
Proof.
  unfold selectionValid. destruct c as [st n]. intros Hc. simpl in Hc.
  destruct e as [| |files|files| | |r]; simpl.
  - split; [exact Hc|constructor].
  - split; [exact Hc|constructor].
  - unfold handleDrop. destruct (files !! 0%nat) as [file|]; [|split; [exact Hc|constructor]].
    pose proof (validate_selectionValid file (setIsDragging false st) Hc) as Hsel.
    destruct (validate_outcome file (setIsDragging false st)) as [[_ E]|[_ [msg E]]];
      rewrite E in *; simpl in *; (split; [exact Hsel|constructor]).
  - destruct (isUploading st); [split; [exact Hc|constructor]|].
    unfold handleFileInput. destruct (files ≫= _) as [file|]; [|split; [exact Hc|constructor]].
    pose proof (validate_selectionValid file st Hc) as Hsel.
    destruct (validate_outcome file st) as [[_ E]|[_ [msg E]]];
      rewrite E in *; simpl in *; (split; [exact Hsel|constructor]).
  - destruct (panelShown st); simpl; (split; [|constructor]); [discriminate|exact Hc].
  - destruct (panelShown st); simpl; [|split; [exact Hc|constructor]].
    unfold handleUpload. destruct (selectedFile st) as [f|] eqn:E; simpl.
    + split; [rewrite E; exact Hc|].
      constructor; [|constructor]. intros f' [= <-]. apply Hc. reflexivity.
    + split; [rewrite E; discriminate|constructor].
  - destruct n as [|n]; simpl; [split; [exact Hc|constructor]|].
    split; [|constructor].
    destruct r as [[] [msg|detail d]|msg]; simpl; try exact Hc; discriminate.
Qed.

Lemma run_selectionValid es c :
  selectionValid c ->
  selectionValid (run es c).1 /\
  Forall (fun eff => forall f, eff = FetchUpload f -> valid f) (run es c).2.
Proof.
  revert c. induction es as [|e es IH]; intros c Hc; simpl.
  - split; [exact Hc|constructor].
  - destruct (step_selectionValid e c Hc) as [Hc1 Heff1].
    destruct (step e c) as [c1 effs1]. simpl in Hc1, Heff1.
    destruct (IH c1 Hc1) as [Hc2 Heff2].
    destruct (run es c1) as [c2 effs2]. simpl in *.
    split; [exact Hc2|]. apply Forall_app. auto.
Qed.

(** X2. Whatever the user drops, chooses, cancels and clicks, and however
    the uploads end, every upload request that the component sends carries
    a file that passed validation: its computed extension is on the
    allow-list and its size is at most 10 MB. *)
Theorem only_validated_files_are_uploaded (es : list event) (f : File) :
  In (FetchUpload f) (run es start).2 -> valid f.
Proof.
  intros Hin.
  assert (Hstart : selectionValid start) by (intros f' H; discriminate).
  destruct (run_selectionValid es start Hstart) as [_ Hall].
  rewrite Forall_forall in Hall. apply (Hall _ (proj2 (list_elem_of_In _ _) Hin)).
  reflexivity.
Qed.

Lemma only_validated_files_are_uploaded_witness :
  valid {| File.name := "notes.PDF"; File.size := 2 * MB |}.
Proof.
  apply (only_validated_files_are_uploaded
           [DragOver;
            Drop [{| File.name := "setup.exe"; File.size := 2 * MB |}];
            Drop [{| File.name := "notes.PDF"; File.size := 2 * MB |};
                  {| File.name := "virus.exe"; File.size := 1 |}];
            FileInput (Some [{| File.name := "huge.txt"; File.size := 12 * MB |}]);
            ClickUpload]).
  vm_compute. tauto.
Defined.

(** X3. However an upload ends, the upload flag is cleared. If it ends
    well, [onFileUploaded] is called with the id and name of the reply and
    the selection is dropped. If it fails (the request is rejected, the
    body does not parse, or the response is not ok), no callback is made,
    an error is set ([detail] if the reply has a non-empty one, otherwise
    "Upload failed"), and the file stays selected, so that another click
    on Upload sends the same file again. *)
Theorem upload_ends (r : fetchOutcome (jsonBody uploadData)) (st : state) (f : File) :
  selectedFile st = Some f ->
  let sending := (handleUpload st).1 in
  let ended := (handleUpload_resume r sending).1 in
  (handleUpload st).2 = [FetchUpload f] /\
  isUploading sending = true /\
  isUploading ended = false /\
  match r with
  | Response true (Json _ d) =>
      (handleUpload_resume r sending).2 = Some (file_id d, file_name d) /\
      selectedFile ended = None /\ error ended = None
  | Response false (Json detail _) =>
      (handleUpload_resume r sending).2 = None /\
      error ended = Some (or_else detail "Upload failed") /\
      (handleUpload ended).2 = [FetchUpload f]
  | Response _ (JsonError message) | Rejected message =>
      (handleUpload_resume r sending).2 = None /\
      error ended = Some message /\
      (handleUpload ended).2 = [FetchUpload f]
  end.
Proof.
  intros Hsel. unfold handleUpload. rewrite Hsel. cbn [fst snd].
  destruct r as [[] [msg|detail d]|msg]; cbn; rewrite ?Hsel; repeat split; reflexivity.
Qed.

Lemma upload_ends_witness :
  let st := (validateAndSetFile {| File.name := "notes.pdf"; File.size := 2 * MB |}
               initial).1 in
  let failed :=
    (handleUpload_resume
       (Response false (Json (Some "Unsupported file") {| file_id := ""; file_name := "" |}))
       (handleUpload st).1) in
  error failed.1 = Some "Unsupported file" /\
  (handleUpload failed.1).2 = [FetchUpload {| File.name := "notes.pdf"; File.size := 2 * MB |}].
Proof.
  cbv zeta.
  pose proof (upload_ends
                (Response false (Json (Some "Unsupported file")
                                   {| file_id := ""; file_name := "" |}))
                (validateAndSetFile {| File.name := "notes.pdf"; File.size := 2 * MB |}
                   initial).1
                {| File.name := "notes.pdf"; File.size := 2 * MB |} eq_refl)
    as (_ & _ & _ & _ & Herr & Hretry).
  split; [exact Herr|exact Hretry].
Defined.

Lemma step_singleFlight e c : singleFlight c -> singleFlight (step e c).1.
Proof.
  unfold singleFlight. destruct c as [st n]. simpl. intros Hc.
  destruct e as [| |files|files| | |r]; simpl; try exact Hc.
  - unfold handleDrop. destruct (files !! 0%nat) as [file|]; [|exact Hc].
    pose proof (validateAndSetFile_accepts_iff file (setIsDragging false st))
      as (_ & _ & _ & _ & _ & Hup).
    destruct (validateAndSetFile file (setIsDragging false st)) as [st' effs].
    simpl in *. rewrite Hup. exact Hc.
  - destruct (isUploading st) eqn:E; simpl; [rewrite E; exact Hc|].
    unfold handleFileInput. destruct (files ≫= _) as [file|]; simpl; [|rewrite E; exact Hc].
    pose proof (validateAndSetFile_accepts_iff file st) as (_ & _ & _ & _ & _ & Hup).
    destruct (validateAndSetFile file st) as [st' effs]. simpl in *. rewrite Hup, E. exact Hc.
  - destruct (panelShown st); exact Hc.
  - unfold panelShown, handleUpload.
    destruct (selectedFile st) as [f|]; [|exact Hc].
    destruct (isUploading st) eqn:E; simpl; [rewrite E; exact Hc|lia].
  - destruct n as [|n]; [exact Hc|].
    destruct (isUploading st); [|discriminate]. injection Hc as ->.
    destruct r as [[] [msg|detail d]|msg]; reflexivity.
Qed.

(** X4. Uploads are single-flight: over every run of the component the
    upload flag is set exactly while one request is outstanding, so a
    second upload is never sent before the first has ended. *)
Theorem upload_single_flight (es : list event) :
  outstanding (run es start).1
  = if isUploading (ui (run es start).1) then 1%nat else 0%nat.
Proof.
  assert (H : forall c, singleFlight c -> singleFlight (run es c).1).
  { induction es as [|e es IH]; intros c Hc; [exact Hc|].
    simpl. pose proof (step_singleFlight e c Hc) as Hc1.
    destruct (step e c) as [c1 effs1]. specialize (IH c1 Hc1).
    destruct (run es c1) as [c2 effs2]. exact IH. }
  apply (H start). reflexivity.
Qed.

End FileUploadFlowFacts.

(** ** Beyond the claims: the API service and the wizard *)
Module AppFlowFacts.
Import JsString App AppFlow.

Lemma or_else_truthy a b : b <> "" -> truthy (Some (or_else a b)) = true.
Proof.
  intros Hb. destruct a as [[|c s]|]; simpl; try reflexivity;
    destruct b; [contradiction|reflexivity|contradiction|reflexivity].
Qed.



(** X6. Submission end to end, [apiService.submitQuiz] followed by the
    rest of [handleQuizSubmit]. An ok response whose body is an object
    moves the wizard to the results phase with that body as the result and
    no error. Every other end of the request, an ok response with a [null]
    or otherwise falsy body included, leaves the phase and the result as
    they were and shows the error overlay with a non-empty message (a
    missing or empty message from the service is replaced by "Failed to
    submit quiz"); a quiz that is mounted keeps its answers and cursor, so
    the submission can be repeated. *)
Theorem submission_end_to_end (r : fetchOutcome (ApiService.body QuizResult))
    (st : state) :
  let st' := handleQuizSubmit_resume (inl (ApiService.submitQuiz r)) st in
  match r with
  | Response true (ApiService.JObject _ d) =>
      phase st' = results /\ quizResults st' = Some d /\ error st' = None
  | _ =>
      phase st' = phase st /\ quizResults st' = quizResults st /\
      overlayShown st' = true /\
      (forall q, phase st = quiz -> quizInterface st = Some q -> quizInterface st' = Some q)
  end /\
  (forall b, r = Response true b -> (forall detail d, b <> ApiService.JObject detail d) ->
     (forall message, b <> ApiService.Unparsable message) ->
     error st' = Some "Failed to submit quiz").
Proof.
  cbv zeta. split.
  - destruct r as [[] [msg|msg| |detail d]|msg]; cbn; repeat split;
      try (intros q -> ->; reflexivity);
      unfold overlayShown; cbn; try (destruct msg; reflexivity).
    destruct detail as [[[] [|c x]]|]; reflexivity.
  - intros b -> Hobj Hpars. destruct b as [msg|msg| |detail d]; cbn.
    + now contradiction (Hpars msg).
    + reflexivity.
    + reflexivity.
    + now contradiction (Hobj detail d).
Qed.

Lemma submission_end_to_end_witness :
  let failed :=
    handleQuizSubmit_resume (inl (ApiService.submitQuiz (Rejected ""))) Scenarios.taking in
  let empty :=
    handleQuizSubmit_resume
      (inl (ApiService.submitQuiz (Response true (ApiService.JNull "data is null"))))
      Scenarios.taking in
  error failed = Some "Failed to submit quiz" /\
  quizInterface failed = Some Samples.threeAnswered /\
  phase empty = quiz /\
  error empty = Some "Failed to submit quiz".
Proof.
  cbv zeta.
  pose proof (submission_end_to_end (Rejected "") Scenarios.taking) as ((_ & _ & _ & Hq) & _).
  pose proof (submission_end_to_end (Response true (ApiService.JNull "data is null"))
                Scenarios.taking) as ((Hphase & _) & Hnull).
  split; [reflexivity|]. split; [apply Hq; reflexivity|]. split; [exact Hphase|].
  apply (Hnull _ eq_refl); intros; discriminate.
Defined.



Lemma renderThrows_in_range st :
  renderThrows st = false <->
  (forall q, quizInterface st = Some q -> QuizInterface.in_range (questions st) q).
Proof.
  unfold renderThrows, QuizInterface.in_range. destruct (quizInterface st) as [q|].
  - destruct (questions st !! Z.to_nat (QuizInterface.currentQuestion q)) eqn:E.
    + apply lookup_lt_Some in E. rewrite Z.ltb_ge. split.
      * intros H q' [= <-]. lia.
      * intros H. specialize (H q eq_refl). lia.
    + apply lookup_ge_None in E. split; [discriminate|].
      intros H. specialize (H q eq_refl). lia.
  - split; [intros _ q; discriminate|reflexivity].
Qed.










(** X8. Every event that changes the phase clears the error overlay: an
    error message never survives a transition. Dismissing the error and
    the health check never change the phase. *)
Theorem phase_change_clears_error (e : event) (st : state) :
  (phase (step e st) <> phase st -> error (step e st) = None) /\
  phase (step DismissError st) = phase st /\
  (forall status, phase (step (HealthChecked status) st) = phase st).
Proof.
  split; [|split; reflexivity].
  destruct e as [id name|generated session|r| | |status|e|k]; cbn; try reflexivity;
    try (intros H; now contradiction H).
  destruct r as [[] [msg|msg| |detail d]|msg]; cbn; try reflexivity;
    intros H; now contradiction H.
Qed.

Lemma phase_change_clears_error_witness :
  error (step (FileUploaded "f-2" "next.pdf")
           (step (SubmitEnds (Rejected "Failed to fetch")) Scenarios.taking)) = None.
Proof.
  apply (phase_change_clears_error (FileUploaded "f-2" "next.pdf")
           (step (SubmitEnds (Rejected "Failed to fetch")) Scenarios.taking)).
  discriminate.
Defined.

(** X9. The health check is advisory: no handler reads the backend
    status, so every event other than the end of the health check does
    the same with any status and leaves the status as it is; the banner is
    shown exactly when the check has ended with a response that is not ok
    or with a failed request. *)
Theorem health_check_is_advisory {B : Type} (e : event) (b : option bool) (st : state)
    (r : fetchOutcome B) :
  ((forall status, e <> HealthChecked status) ->
     step e (withStatus b st) = withStatus b (step e st)) /\
  (bannerShown (step (HealthChecked (ApiService.checkHealth r)) st) = true
   <-> forall body, r <> Response true body) /\
  bannerShown initial = false.
Proof.
  split; [|split; [|reflexivity]].
  - intros Hne. destruct e as [id name|generated session|r'| | |status|e|k]; cbn;
      try reflexivity.
    + destruct r' as [[] [msg|msg| |detail d]|msg]; reflexivity.
    + now contradiction (Hne status).
  - destruct r as [[] body|msg]; cbn; split; try discriminate; try reflexivity.
    intros H. now contradiction (H body).
Qed.

Lemma health_check_is_advisory_witness :
  step Restart (withStatus (Some false) Scenarios.taking)
  = withStatus (Some false) (step Restart Scenarios.taking).
Proof.
  apply (health_check_is_advisory (B := unit) Restart (Some false) Scenarios.taking
           (Rejected "Failed to fetch")).
  discriminate.
Defined.

(** X10. Entering the quiz. When no quiz is mounted, a generation with at
    least one question shows a fresh quiz (cursor 0, no answers, export
    flag clear) on the generated questions and session; with an empty list
    the quiz's render throws and the page goes blank. When a quiz is
    already mounted, a generation keeps that component's cursor and answers
    and shows the quiz on the new questions if the kept cursor is within
    the new list; if it is not, the render throws and the page goes
    blank. *)
Theorem entering_quiz (generated : list QuizInterface.Question) (session : string)
    (st : state) :
  let entered := handleQuestionsGenerated generated session st in
  (quizInterface st = None -> generated <> [] ->
     commit entered = Some entered /\
     quizInterface entered = Some QuizInterface.initial /\
     phase entered = quiz /\ questions entered = generated /\ sessionId entered = session) /\
  (quizInterface st = None -> generated = [] -> commit entered = None) /\
  (forall q, quizInterface st = Some q -> QuizInterface.in_range generated q ->
     commit entered = Some entered /\
     quizInterface entered = Some q /\
     phase entered = quiz /\ questions entered = generated /\ sessionId entered = session) /\
  (forall q, quizInterface st = Some q -> ~ QuizInterface.in_range generated q ->
     commit entered = None).
Proof.
  cbv zeta.
  assert (Hr : forall q, default QuizInterface.initial (quizInterface st) = q ->
            (renderThrows (handleQuestionsGenerated generated session st) = false
             <-> QuizInterface.in_range generated q)).
  { intros q Hq. rewrite renderThrows_in_range. cbn. rewrite Hq. split.
    - intros H. apply (H q eq_refl).
    - intros H q' [= <-]. exact H. }
  split; [|split; [|split]].
  - intros Hnone Hne. rewrite Hnone in Hr. unfold commit.
    rewrite (proj2 (Hr QuizInterface.initial eq_refl)).
    + cbn. rewrite Hnone. repeat split.
    + unfold QuizInterface.in_range. destruct generated; [contradiction|]. cbn. lia.
  - intros Hnone ->. unfold commit, renderThrows. cbn. rewrite Hnone. reflexivity.
  - intros q Hq Hin. rewrite Hq in Hr. unfold commit.
    rewrite (proj2 (Hr q eq_refl) Hin). cbn. rewrite Hq. repeat split.
  - intros q Hq Hout. rewrite Hq in Hr. unfold commit.
    destruct (renderThrows (handleQuestionsGenerated generated session st)); [reflexivity|].
    contradiction Hout. apply (Hr q eq_refl). reflexivity.
Qed.

Lemma entering_quiz_witness :
  (quizInterface <$>
     commit (handleQuestionsGenerated Samples.five "s-2"
               (handleFileUploaded "f-2" "next.pdf" (handleRestart Scenarios.taking))))
  = Some (Some QuizInterface.initial) /\
  commit (handleQuestionsGenerated [] "s-2"
            (handleFileUploaded "f-2" "next.pdf" (handleRestart Scenarios.taking))) = None /\
  (quizInterface <$> commit (handleQuestionsGenerated Samples.five "s-2" Scenarios.taking))
  = Some (Some Samples.threeAnswered) /\
  commit (handleQuestionsGenerated Samples.three "s-2" Scenarios.taking) = None.
Proof.
  pose proof (entering_quiz Samples.five "s-2"
                (handleFileUploaded "f-2" "next.pdf" (handleRestart Scenarios.taking)))
    as (Hfresh & _).
  pose proof (entering_quiz [] "s-2"
                (handleFileUploaded "f-2" "next.pdf" (handleRestart Scenarios.taking)))
    as (_ & Hempty & _).
  pose proof (entering_quiz Samples.five "s-2" Scenarios.taking) as (_ & _ & Hkept & _).
  pose proof (entering_quiz Samples.three "s-2" Scenarios.taking) as (_ & _ & _ & Hshort).
  split; [|split; [|split]].
  - destruct Hfresh as (Hc & Hq & _); [reflexivity|discriminate|].
    rewrite Hc. exact (f_equal Some Hq).
  - apply Hempty; reflexivity.
  - destruct (Hkept Samples.threeAnswered) as (Hc & Hq & _);
      [reflexivity|unfold QuizInterface.in_range; simpl; lia|].
    rewrite Hc. exact (f_equal Some Hq).
  - apply (Hshort Samples.threeAnswered); [reflexivity|].
    unfold QuizInterface.in_range. simpl. lia.
Defined.


End AppFlowFacts.

(** ** Beyond the claims: the quiz component *)
Module QuizViewFacts.
Import JsNum JsString QuizInterface QuizView.

Lemma size_list_to_set_le (l : list string) :
  (size (list_to_set l : gset string) <= length l)%nat.
Proof.
  induction l as [|x l IH]; [now rewrite list_to_set_nil, size_empty|].
  rewrite list_to_set_cons, size_union_alt, size_singleton. simpl.
  pose proof (subseteq_size (list_to_set l ∖ {[x]}) (list_to_set l : gset string)) as H.
  assert (Hsub : list_to_set l ∖ {[x]} ⊆ (list_to_set l : gset string)).
  { intros y Hy. apply elem_of_difference in Hy. tauto. }
  specialize (H Hsub). lia.
Qed.

Lemma clickOption_answers qs k st :
  answers (clickOption qs k st) = answers st \/
  exists q o, qs !! Z.to_nat (currentQuestion st) = Some q /\ optionLabels !! k = Some o /\
              0 <= currentQuestion st /\
              clickOption qs k st = handleAnswer (id q) o st.
Proof.
  unfold clickOption. destruct (qs !! _) as [q|] eqn:Eq; [|auto].
  destruct (optionLabels !! k) as [o|] eqn:Eo; [|auto].
  destruct (Z.ltb_spec (currentQuestion st) 0); [auto|].
  right. exists q, o. auto.
Qed.

Lemma clickOption_keysWithin qs k st : keysWithin qs st -> keysWithin qs (clickOption qs k st).
Proof.
  unfold keysWithin. intros Hst.
  destruct (clickOption_answers qs k st) as [->|(q & o & Hq & _ & _ & ->)]; [exact Hst|].
  cbn. rewrite dom_insert. intros x Hx. apply elem_of_union in Hx as [Hx|Hx]; [|auto].
  apply elem_of_singleton in Hx as ->.
  apply elem_of_list_to_set, list_elem_of_fmap. exists q. split; [reflexivity|].
  apply list_elem_of_lookup. eauto.
Qed.

Lemma sessionRun_keysWithin qs sid es c :
  keysWithin qs (ui c) -> keysWithin qs (ui (sessionRun qs sid es c)).
Proof.
  unfold sessionRun. revert c. induction es as [|e es IH]; intros c Hc; [exact Hc|].
  simpl. apply IH. destruct c as [st n]. simpl in *.
  destruct e as [|e|k|r]; simpl.
  - unfold clickExport. destruct (exporting st); exact Hc.
  - unfold keysWithin. now rewrite (proj1 (QuizInterfaceFacts.navStep_frame qs e st)).
  - now apply clickOption_keysWithin.
  - destruct n as [|n]; [exact Hc|]. destruct r as [[] ?|?]; exact Hc.
Qed.

Lemma keysWithin_count qs st :
  keysWithin qs st -> (answeredCount st <= length qs)%nat.
Proof.
  intros Hk. rewrite QuizInterfaceFacts.answeredCount_size.
  unfold keysWithin in Hk. apply subseteq_size in Hk.
  pose proof (size_list_to_set_le (id <$> qs)) as Hle. rewrite length_fmap in Hle. lia.
Qed.

Lemma progress_bounds qs st :
  (0 < length qs)%nat -> (answeredCount st <= length qs)%nat ->
  exists q, progress qs st = Fin q /\ (0 <= q)%Q /\ (q <= 100)%Q.
Proof. apply QuizInterfaceFacts.progress_in_bounds. Qed.

(** X11. In every state the quiz component can reach from its initial
    state (by navigation, option clicks, export clicks and export
    endings), every answered id is the id of a question and every stored
    answer is an option label; hence the answered count never exceeds the
    number of questions, and with at least one question the progress value
    is a finite number between 0 and 100. *)
Theorem progress_within_bounds (qs : list Question) (sid : string)
    (es : list sessionEvent) :
  let st := ui (sessionRun qs sid es sessionStart) in
  keysWithin qs st /\
  labelled (answers st) /\
  (answeredCount st <= length qs)%nat /\
  (qs <> [] -> exists q, progress qs st = Fin q /\ (0 <= q)%Q /\ (q <= 100)%Q).
Proof.
  cbv zeta.
  assert (Hk : keysWithin qs (ui (sessionRun qs sid es sessionStart))).
  { apply sessionRun_keysWithin. unfold keysWithin. cbn. rewrite dom_empty.
    apply empty_subseteq. }
  split; [exact Hk|]. split.
  - apply QuizInterfaceFacts.sessionRun_labelled. cbn. apply map_Forall_empty.
  - split; [now apply keysWithin_count|].
    intros Hne. apply progress_bounds; [|now apply keysWithin_count].
    destruct qs; [contradiction|simpl; lia].
Qed.

Lemma progress_within_bounds_witness :
  exists q,
    progress Samples.five
      (ui (sessionRun Samples.five "s-1"
             [Select 0%nat; Navigate Next; Select 2%nat; Select 1%nat; ClickExport]
             sessionStart))
    = Fin q /\ (0 <= q)%Q /\ (q <= 100)%Q.
Proof.
  apply (progress_within_bounds Samples.five "s-1"
           [Select 0%nat; Navigate Next; Select 2%nat; Select 1%nat; ClickExport]).
  discriminate.
Defined.

(** X12. With question ids that are pairwise distinct and none of which
    names an inherited object property, in every reachable state the number
    shown as answered and the number of unanswered questions that the
    submit dialog cites add up to the number of questions. (With an id
    such as "constructor" they do not: such a question counts neither as
    answered nor as unanswered.) *)
Theorem answered_plus_unanswered (qs : list Question) (sid : string)
    (es : list sessionEvent) :
  NoDup (id <$> qs) -> plainIds qs ->
  let st := ui (sessionRun qs sid es sessionStart) in
  (answeredCount st + length (unanswered qs st) = length qs)%nat.
Proof.
  intros Hnd Hplain. cbv zeta.
  destruct (progress_within_bounds qs sid es) as (Hk & Hl & Hle & _).
  rewrite (QuizInterfaceFacts.unanswered_length _ _ Hnd Hplain Hl).
  unfold SpecWords.unansweredCount.
  rewrite (subseteq_intersection_1_L _ _ Hk), QuizInterfaceFacts.answeredCount_size.
  rewrite QuizInterfaceFacts.answeredCount_size in Hle. lia.
Qed.

Lemma answered_plus_unanswered_witness :
  let st := ui (sessionRun Samples.five "s-1"
                  [Select 0%nat; Navigate Next; Select 2%nat; Select 1%nat] sessionStart) in
  (answeredCount st + length (unanswered Samples.five st) = 5)%nat.
Proof.
  apply (answered_plus_unanswered Samples.five "s-1"
           [Select 0%nat; Navigate Next; Select 2%nat; Select 1%nat]).
  - apply (bool_decide_unpack _). vm_compute. reflexivity.
  - repeat constructor.
Defined.

Lemma presses_next qs n st :
  in_range qs st ->
  presses n (handleNext qs) st
  = setCurrentQuestion
      (Z.min (currentQuestion st + Z.of_nat n) (Z.of_nat (length qs) - 1)) st.
Proof.
  unfold in_range, presses. intros Hr. induction n as [|n IH].
  - simpl. rewrite Z.add_0_r, Z.min_l by lia. now destruct st.
  - rewrite Nat.iter_succ, IH. unfold handleNext. cbn [currentQuestion setCurrentQuestion].
    destruct (Z.ltb_spec (Z.min (currentQuestion st + Z.of_nat n) (Z.of_nat (length qs) - 1))
                (Z.of_nat (length qs) - 1));
      unfold setCurrentQuestion; cbn; f_equal; lia.
Qed.

Lemma presses_previous n st :
  0 <= currentQuestion st ->
  presses n handlePrevious st
  = setCurrentQuestion (Z.max (currentQuestion st - Z.of_nat n) 0) st.
Proof.
  unfold presses. intros Hr. induction n as [|n IH].
  - simpl. rewrite Z.sub_0_r, Z.max_l by lia. now destruct st.
  - rewrite Nat.iter_succ, IH. unfold handlePrevious. cbn [currentQuestion setCurrentQuestion].
    rewrite Z.gtb_ltb.
    destruct (Z.ltb_spec 0 (Z.max (currentQuestion st - Z.of_nat n) 0));
      unfold setCurrentQuestion; cbn; f_equal; lia.
Qed.

(** X13. Navigation composes as on a bounded counter. From a cursor
    within range, [n] presses of Next put it at the smaller of cursor + n
    and the last index, so the last question, where the Submit button
    replaces Next, is reached after at most length - 1 presses and never
    passed; [n] presses of Previous put it at the larger of cursor - n and
    0. Next then Previous returns to the same state unless the cursor was
    on the last question, and Previous then Next unless it was on the
    first. *)
Theorem navigation_composes (qs : list Question) (st : state) :
  in_range qs st ->
  (forall n, presses n (handleNext qs) st
             = setCurrentQuestion
                 (Z.min (currentQuestion st + Z.of_nat n) (Z.of_nat (length qs) - 1)) st) /\
  (forall n, presses n handlePrevious st
             = setCurrentQuestion (Z.max (currentQuestion st - Z.of_nat n) 0) st) /\
  (forall n, (length qs - 1 <= n)%nat ->
             submitShown qs (presses n (handleNext qs) st) = true) /\
  (currentQuestion st < Z.of_nat (length qs) - 1 ->
     handlePrevious (handleNext qs st) = st) /\
  (0 < currentQuestion st -> handleNext qs (handlePrevious st) = st).
Proof.
  intros Hr. pose proof Hr as Hr'. unfold in_range in Hr'.
  split; [intros n; now apply presses_next|].
  split; [intros n; apply presses_previous; lia|].
  split; [|split].
  - intros n Hn. rewrite (presses_next qs n st Hr). unfold submitShown. cbn.
    apply Z.eqb_eq. lia.
  - intros Hlt. unfold handleNext. apply Z.ltb_lt in Hlt. rewrite Hlt.
    unfold handlePrevious. cbn. rewrite Z.gtb_ltb.
    destruct (Z.ltb_spec 0 (currentQuestion st + 1)); [|lia].
    destruct st; unfold setCurrentQuestion; cbn. f_equal. lia.
  - intros Hgt. unfold handlePrevious. rewrite Z.gtb_ltb.
    destruct (Z.ltb_spec 0 (currentQuestion st)); [|lia].
    unfold handleNext. cbn.
    destruct (Z.ltb_spec (currentQuestion st - 1) (Z.of_nat (length qs) - 1)); [|lia].
    destruct st; unfold setCurrentQuestion; cbn. f_equal. lia.
Qed.

Lemma navigation_composes_witness :
  presses 7 (handleNext Samples.five) (setCurrentQuestion 2 initial)
  = setCurrentQuestion 4 initial /\
  submitShown Samples.five (presses 4 (handleNext Samples.five) initial) = true /\
  handlePrevious (handleNext Samples.five initial) = initial.
Proof.
  assert (Hr : forall c, 0 <= c < 5 -> in_range Samples.five (setCurrentQuestion c initial)).
  { intros c Hc. unfold in_range. simpl. lia. }
  split; [|split].
  - pose proof (navigation_composes Samples.five (setCurrentQuestion 2 initial)
                  (Hr 2 ltac:(lia))) as (Hnext & _).
    rewrite (Hnext 7%nat). reflexivity.
  - pose proof (navigation_composes Samples.five initial (Hr 0 ltac:(lia)))
      as (_ & _ & Hsubmit & _).
    apply Hsubmit. simpl. lia.
  - pose proof (navigation_composes Samples.five initial (Hr 0 ltac:(lia)))
      as (_ & _ & _ & Hback & _).
    apply Hback. simpl. lia.
Defined.

(** X14. The option buttons behave as radio buttons. A click on the
    [k]-th option of the displayed question selects that option and no
    other option of the question; it changes no selection of a question
    with another id, so with pairwise distinct ids no other question of
    the list is affected; and it moves neither the cursor nor the export
    flag. A click where no question is displayed or no such option exists
    changes nothing. *)
Theorem option_click_selects (qs : list Question) (k : nat) (st : state) :
  (forall q o, 0 <= currentQuestion st ->
     qs !! Z.to_nat (currentQuestion st) = Some q -> optionLabels !! k = Some o ->
     (forall o', isSelected q o' (clickOption qs k st) = bool_decide (o' = o)) /\
     (forall q' o', id q' <> id q ->
        isSelected q' o' (clickOption qs k st) = isSelected q' o' st) /\
     (NoDup (id <$> qs) -> forall j q' o',
        j <> Z.to_nat (currentQuestion st) -> qs !! j = Some q' ->
        isSelected q' o' (clickOption qs k st) = isSelected q' o' st)) /\
  currentQuestion (clickOption qs k st) = currentQuestion st /\
  exporting (clickOption qs k st) = exporting st /\
  ((4 <= k)%nat -> clickOption qs k st = st) /\
  (qs !! Z.to_nat (currentQuestion st) = None -> clickOption qs k st = st).
Proof.
  split; [|split; [|split; [|split]]].
  - intros q o Hpos Hq Ho.
    assert (Hclick : clickOption qs k st = handleAnswer (id q) o st).
    { unfold clickOption. rewrite Hq, Ho.
      destruct (Z.ltb_spec (currentQuestion st) 0); [lia|reflexivity]. }
    rewrite Hclick. unfold isSelected, handleAnswer. cbn.
    assert (Hother : forall q' o', id q' <> id q ->
              bool_decide (<[id q:=o]> (answers st) !! id q' = Some o')
              = bool_decide (answers st !! id q' = Some o')).
    { intros q' o' Hne. now rewrite lookup_insert_ne by congruence. }
    split; [|split; [exact Hother|]].
    + intros o'. rewrite lookup_insert_eq. apply bool_decide_ext.
      split; [intros [= ->]; reflexivity|intros ->; reflexivity].
    + intros Hnd j q' o' Hj Hq'. apply Hother. intros Heq.
      apply Hj. eapply NoDup_lookup; [exact Hnd| |].
      * rewrite list_lookup_fmap, Hq'. reflexivity.
      * rewrite list_lookup_fmap, Hq. cbn. now rewrite Heq.
  - unfold clickOption. destruct (qs !! _); [|reflexivity].
    destruct (optionLabels !! k); [|reflexivity]. destruct (_ <? 0); reflexivity.
  - apply QuizInterfaceFacts.clickOption_exporting.
  - intros Hk. unfold clickOption. destruct (qs !! _); [|reflexivity].
    rewrite (lookup_ge_None_2 optionLabels k) by (simpl; lia). reflexivity.
  - intros Hnone. unfold clickOption. now rewrite Hnone.
Qed.

Lemma option_click_selects_witness :
  let st := clickOption Samples.five 2 (setCurrentQuestion 1 Samples.threeAnswered) in
  isSelected (Samples.question "q2" "two?") "C" st = true /\
  isSelected (Samples.question "q2" "two?") "A" st = false /\
  isSelected (Samples.question "q1" "one?") "A" st = true /\
  clickOption Samples.five 4 Samples.threeAnswered = Samples.threeAnswered.
Proof.
  cbv zeta.
  pose proof (option_click_selects Samples.five 2 (setCurrentQuestion 1 Samples.threeAnswered))
    as (Hsel & _).
  destruct (Hsel (Samples.question "q2" "two?") "C") as (Hthis & Hother & _);
    [simpl; lia|reflexivity|reflexivity|].
  split; [rewrite Hthis; reflexivity|].
  split; [rewrite Hthis; reflexivity|].
  split; [rewrite Hother; [reflexivity|discriminate]|].
  pose proof (option_click_selects Samples.five 4 Samples.threeAnswered)
    as (_ & _ & _ & Hnone & _).
  apply Hnone. lia.
Defined.

End QuizViewFacts.

(** ** Beyond the claims: the results page *)
Module ResultsViewFacts.
Import JsNum JsString ResultsDisplay ResultsView.



Lemma box_icons result option :
  optionIcons result option
  = match optionBox result option with
    | Green => [CheckCircle]
    | Red => [XCircle]
    | Gray => []
    end.
Proof.
  unfold optionIcons, optionBox.
  destruct (String.eqb (App.correct_answer result) option),
           (String.eqb (App.user_answer result) option); reflexivity.
Qed.

(** X16. In the detail of a result the check icon is on exactly the green
    box and the cross on exactly the red one. The option equal to the
    correct answer is green; the option equal to the user's answer is red
    only if it is not the correct one. So of the four options at most one
    is green and at most one red, and none is red when the user's answer is
    the correct answer or is not one of the four labels (an unanswered
    question). *)
Theorem option_marks (result : App.ResultItem) :
  (forall option, optionIcons result option
                  = match optionBox result option with
                    | Green => [CheckCircle]
                    | Red => [XCircle]
                    | Gray => []
                    end) /\
  (forall option, optionBox result option = Green <-> App.correct_answer result = option) /\
  (forall option, optionBox result option = Red <->
                  App.user_answer result = option /\ App.correct_answer result <> option) /\
  (length (List.filter isGreen (boxes result)) <= 1)%nat /\
  (length (List.filter isRed (boxes result)) <= 1)%nat /\
  (App.user_answer result = App.correct_answer result \/
   ~ In (App.user_answer result) optionLabels ->
   List.filter isRed (boxes result) = []).
Proof.
  assert (Hgreen : forall option,
            optionBox result option = Green <-> App.correct_answer result = option).
  { intros option. unfold optionBox.
    destruct (String.eqb_spec (App.correct_answer result) option);
      destruct (String.eqb (App.user_answer result) option); split; congruence. }
  assert (Hred : forall option,
            optionBox result option = Red <->
            App.user_answer result = option /\ App.correct_answer result <> option).
  { intros option. unfold optionBox.
    destruct (String.eqb_spec (App.correct_answer result) option);
      destruct (String.eqb_spec (App.user_answer result) option); split;
      try congruence; try tauto; intros [? ?]; congruence. }
  split; [apply box_icons|]. split; [exact Hgreen|]. split; [exact Hred|].
  unfold boxes, optionLabels. cbn [fmap list_fmap].
  split; [|split].
  - destruct (optionBox result "A") eqn:EA, (optionBox result "B") eqn:EB,
      (optionBox result "C") eqn:EC, (optionBox result "D") eqn:ED; cbn; try lia;
      repeat match goal with
             | H : optionBox _ _ = Green |- _ => apply Hgreen in H
             end; congruence.
  - destruct (optionBox result "A") eqn:EA, (optionBox result "B") eqn:EB,
      (optionBox result "C") eqn:EC, (optionBox result "D") eqn:ED; cbn; try lia;
      repeat match goal with
             | H : optionBox _ _ = Red |- _ => apply Hred in H as [? ?]
             end; congruence.
  - intros Hcase.
    assert (Hno : forall o, In o optionLabels -> isRed (optionBox result o) = false).
    { intros o Ho. destruct (optionBox result o) eqn:E; try reflexivity.
      apply Hred in E as [Hu Hc]. destruct Hcase as [Heq|Hnot].
      - congruence.
      - subst o. contradiction. }
    cbn [List.filter]. rewrite !Hno by (simpl; tauto). reflexivity.
Qed.

Lemma option_marks_witness :
  boxes unansweredItem = [Gray; Green; Gray; Gray] /\
  List.filter isRed (boxes unansweredItem) = [].
Proof.
  split; [reflexivity|].
  apply (option_marks unansweredItem). right. simpl.
  intros [H|[H|[H|[H|[]]]]]; discriminate.
Defined.

Lemma ge_trans a b x : ge a b = true -> ge b (Fin x) = true -> ge a (Fin x) = true.
Proof.
  destruct a as [qa| | |], b as [qb| | |]; cbn; try congruence; intros Hab Hbx.
  apply Qle_bool_iff in Hab, Hbx. apply Qle_bool_iff. eapply Qle_trans; eassumption.
Qed.

(** X17. The grade never gets worse when the percentage gets better: if
    [q >= p] then the grade of [q] ranks at least as high as the grade of
    [p] in the order F, D, C, B, A, S. A percentage that is not a number
    gets F. *)
Theorem getGrade_monotone (p q : number) :
  (ge q p = true ->
   (gradeRank (grade (getGrade p)) <= gradeRank (grade (getGrade q)))%nat) /\
  grade (getGrade NaN) = "F".
Proof.
  split; [|reflexivity].
  intros Hqp.
  assert (Ht : forall t, ge p (of_Z t) = true -> ge q (of_Z t) = true).
  { intros t. apply ge_trans. exact Hqp. }
  pose proof (Ht 93) as H93. pose proof (Ht 85) as H85. pose proof (Ht 75) as H75.
  pose proof (Ht 60) as H60. pose proof (Ht 35) as H35. clear Ht.
  unfold getGrade.
  destruct (ge p (of_Z 93)); [rewrite (H93 eq_refl); cbn; lia|].
  destruct (ge p (of_Z 85));
    [rewrite (H85 eq_refl); destruct (ge q (of_Z 93)); cbn; lia|].
  destruct (ge p (of_Z 75));
    [rewrite (H75 eq_refl); destruct (ge q (of_Z 93)), (ge q (of_Z 85)); cbn; lia|].
  destruct (ge p (of_Z 60));
    [rewrite (H60 eq_refl);
     destruct (ge q (of_Z 93)), (ge q (of_Z 85)), (ge q (of_Z 75)); cbn; lia|].
  destruct (ge p (of_Z 35));
    [rewrite (H35 eq_refl);
     destruct (ge q (of_Z 93)), (ge q (of_Z 85)), (ge q (of_Z 75)), (ge q (of_Z 60));
     cbn; lia|].
  cbn. lia.
Qed.

Lemma getGrade_monotone_witness :
  (gradeRank (grade (getGrade (Fin (749 # 10))))
   <= gradeRank (grade (getGrade (Fin 75))))%nat.
Proof.
  apply (getGrade_monotone (Fin (749 # 10)) (Fin 75)). reflexivity.
Defined.

Lemma step_export_flag sid e c :
  outstanding c = (if isExporting (ui c) then 1%nat else 0%nat) ->
  outstanding (step sid e c).1
  = (if isExporting (ui (step sid e c).1) then 1%nat else 0%nat).
Proof.
  destruct c as [st n]. cbn [ui outstanding]. intros Hc.
  destruct e as [format|question_id|ty format now r]; simpl.
  - unfold clickExport. destruct (isExporting st) eqn:E; simpl; [rewrite E|]; lia.
  - exact Hc.
  - destruct n as [|n]; [exact Hc|].
    destruct (isExporting st); [|discriminate]. injection Hc as ->.
    destruct r as [[] ?|?]; reflexivity.
Qed.

(** X18. The two export buttons of the results page share one flag: over
    every run of export clicks, header clicks and export endings the flag
    is set exactly while one export is outstanding, so a second export,
    in either format, is never sent before the first has ended. *)
Theorem results_export_single_flight (sid : string) (es : list event) :
  outstanding (run sid es start)
  = if isExporting (ui (run sid es start)) then 1%nat else 0%nat.
Proof.
  assert (H : forall c,
            outstanding c = (if isExporting (ui c) then 1%nat else 0%nat) ->
            outstanding (run sid es c)
            = (if isExporting (ui (run sid es c)) then 1%nat else 0%nat)).
  { unfold run. induction es as [|e es IH]; intros c Hc; [exact Hc|].
    simpl. apply IH, step_export_flag, Hc. }
  apply (H start). reflexivity.
Qed.

End ResultsViewFacts.
